(** * The United States Tax Court scraper (juriscraper, [tax.py])

    A shallow embedding of
    [juriscraper/opinions/united_states/federal_special/tax.py]:
    the citation extractor [extract_from_text] with its two regular
    expressions, the four field getters over the result table, the weekly
    back-scrape iterable and the back-scrape driver.

    Python [str] values are modelled as lists of characters whose code points
    are below 256; the character classes of Python's Unicode database are
    written out on that range. *)

From Stdlib Require Import List Ascii String NArith ZArith Lia Bool Arith Sorted.

Set Warnings "-register-all".
Import ListNotations.

Open Scope string_scope.
Open Scope list_scope.

(** ** Python strings *)

Definition str := list ascii.

Coercion list_ascii_of_string : string >-> list.

Module PyStr.

Definition code (c : ascii) : N := N_of_ascii c.

Definition between (lo hi : N) (c : ascii) : bool :=
  ((lo <=? code c) && (code c <=? hi))%N.

(** [str.isspace] on one character. *)
Definition is_space (c : ascii) : bool :=
  between 9 13 c || between 28 32 c
  || (code c =? 133)%N || (code c =? 160)%N.

(** [str.isdecimal] on one character. *)
Definition is_decimal (c : ascii) : bool := between 48 57 c.

(** [str.isalnum] on one character: letters, decimals, digits, numerics. *)
Definition is_alnum (c : ascii) : bool :=
  between 48 57 c || between 65 90 c || between 97 122 c
  || (code c =? 170)%N || between 178 179 c || (code c =? 181)%N
  || between 185 186 c || between 188 190 c
  || between 192 214 c || between 216 246 c || between 248 255 c.

(** One character of [str.lower]. *)
Definition lower_char (c : ascii) : ascii :=
  if between 65 90 c || (between 192 222 c && negb (code c =? 215)%N)
  then ascii_of_N (code c + 32)
  else c.

(** [s.lower()] *)
Definition lower (s : str) : str := map lower_char s.

Fixpoint lstrip (s : str) : str :=
  match s with
  | c :: s' => if is_space c then lstrip s' else s
  | [] => []
  end.

Definition rstrip (s : str) : str := rev (lstrip (rev s)).

(** [s.strip()] *)
Definition strip (s : str) : str := rstrip (lstrip s).

(** [a == b] *)
Fixpoint str_eq (a b : str) : bool :=
  match a, b with
  | [], [] => true
  | x :: a', y :: b' => (x =? y)%char && str_eq a' b'
  | _, _ => false
  end.

(** [s.startswith(p)] *)
Fixpoint startswith (p s : str) : bool :=
  match p, s with
  | [], _ => true
  | a :: p', b :: s' => (a =? b)%char && startswith p' s'
  | _ :: _, [] => false
  end.

(** [needle in hay] *)
Fixpoint contains (needle hay : str) : bool :=
  startswith needle hay
  || match hay with
     | [] => false
     | _ :: hay' => contains needle hay'
     end.

(** [s.replace(old, new)] for a non-empty [old]: the occurrences of [old]
    are found from left to right and do not overlap.  [skip] counts the
    characters of an occurrence that are still to be dropped. *)
Fixpoint replace_from (old new : str) (skip : nat) (s : str) : str :=
  match s with
  | [] => []
  | c :: s' =>
      match skip with
      | S n => replace_from old new n s'
      | O =>
          if startswith old s
          then new ++ replace_from old new (List.length old - 1) s'
          else c :: replace_from old new 0 s'
      end
  end.

Definition replace (old new s : str) : str := replace_from old new 0 s.

End PyStr.

(** ** Python's [re] on the constructs the two patterns use *)

Module Re.
Import PyStr.

(** One-character items.  The patterns are compiled with [re.IGNORECASE]:
    a literal is compared after lower-casing both sides. *)
Inductive atom : Type :=
| Lit (c : ascii)        (* a literal character *)
| Range (lo hi : ascii)  (* [lo-hi]; the bounds are digits in every use *)
| Decimal                (* \d *)
| Space                  (* \s *)
| Dot.                   (* .  (no DOTALL: anything but a newline) *)

Inductive regex : Type :=
| Eps
| Atom (a : atom)
| Rep (a : atom) (lo : nat) (hi : option nat)   (* greedy a{lo,hi} *)
| WordB                                         (* \b *)
| Group (n : nat) (r : regex)                   (* n-th capturing group *)
| Seq (r1 r2 : regex)
| Alt (r1 r2 : regex).

Definition atom_ok (a : atom) (x : ascii) : bool :=
  match a with
  | Lit c => (lower_char x =? lower_char c)%char
  | Range lo hi => between (code lo) (code hi) x
  | Decimal => is_decimal x
  | Space => is_space x
  | Dot => negb (x =? "010")%char
  end.

Definition is_word (c : ascii) : bool := is_alnum c || (c =? "_")%char.

Definition word_before (prev : option ascii) : bool :=
  match prev with Some c => is_word c | None => false end.

Definition word_after (rest : str) : bool :=
  match rest with c :: _ => is_word c | [] => false end.

(** [\b]: exactly one side of the position is a word character. *)
Definition at_boundary (prev : option ascii) (rest : str) : bool :=
  xorb (word_before prev) (word_after rest).

(** Captured groups, the latest binding first. *)
Definition caps := list (nat * str).

Fixpoint lookup (n : nat) (c : caps) : option str :=
  match c with
  | [] => None
  | (i, s) :: c' => if Nat.eqb i n then Some s else lookup n c'
  end.

(** The match object: [m.group()] and [m.group(n)]. *)
Record match_object := { whole : str; groups : caps }.

Definition group (m : match_object) (n : nat) : option str :=
  lookup n (groups m).

(** A position is the character before it and the text after it. *)
Definition cont := option ascii -> str -> caps -> option match_object.

Definition orelse {A} (x y : option A) : option A :=
  match x with Some _ => x | None => y end.

Definition hi_open (hi : option nat) : bool :=
  match hi with Some 0 => false | _ => true end.

(** Greedy repetition of a one-character item: take as many as allowed,
    then give back one at a time. *)
Fixpoint rep_greedy (p : ascii -> bool) (lo : nat) (hi : option nat)
         (k : option ascii -> str -> option match_object)
         (prev : option ascii) (rest : str) : option match_object :=
  let stop := match lo with 0 => k prev rest | S _ => None end in
  match rest with
  | x :: rest' =>
      if p x && hi_open hi
      then orelse (rep_greedy p (pred lo) (option_map pred hi) k
                              (Some x) rest')
                  stop
      else stop
  | [] => stop
  end.

(** The backtracking matcher, in continuation-passing style. *)
Fixpoint run (r : regex) (k : cont) (prev : option ascii) (rest : str)
         (c : caps) : option match_object :=
  match r with
  | Eps => k prev rest c
  | Atom a =>
      match rest with
      | x :: rest' => if atom_ok a x then k (Some x) rest' c else None
      | [] => None
      end
  | Rep a lo hi =>
      rep_greedy (atom_ok a) lo hi (fun p s => k p s c) prev rest
  | WordB => if at_boundary prev rest then k prev rest c else None
  | Group n r' =>
      run r'
          (fun prev' rest' c' =>
             k prev' rest'
               ((n, firstn (List.length rest - List.length rest') rest) :: c'))
          prev rest c
  | Seq r1 r2 => run r1 (run r2 k) prev rest c
  | Alt r1 r2 => orelse (run r1 k prev rest c) (run r2 k prev rest c)
  end.

(** A match that starts at the given position. *)
Definition match_at (r : regex) (prev : option ascii) (rest : str)
  : option match_object :=
  run r
      (fun _ rest' c =>
         Some {| whole := firstn (List.length rest - List.length rest') rest;
                 groups := c |})
      prev rest [].

(** [re.search]: the match at the leftmost position that has one. *)
Fixpoint search_from (r : regex) (prev : option ascii) (rest : str)
  : option match_object :=
  orelse (match_at r prev rest)
         match rest with
         | [] => None
         | x :: rest' => search_from r (Some x) rest'
         end.

Definition search (r : regex) (s : str) : option match_object :=
  search_from r None s.

(** Pattern building. *)
Fixpoint seq (rs : list regex) : regex :=
  match rs with
  | [] => Eps
  | [r] => r
  | r :: rs' => Seq r (seq rs')
  end.

Fixpoint lit (s : str) : regex :=
  match s with
  | [] => Eps
  | [c] => Atom (Lit c)
  | c :: s' => Seq (Atom (Lit c)) (lit s')
  end.

Definition opt (a : atom) : regex := Rep a 0 (Some 1).

End Re.

(** ** The rendered document and the XPath queries of the getters *)

Module Html.
Import PyStr.

(** An lxml tree: text and elements with their attributes. *)
Inductive node : Type :=
| Text (s : str)
| Element (tag : str) (attrib : list (str * str)) (children : list node).

(** [attrib.get(name)] *)
Fixpoint get (attrib : list (str * str)) (name : str) : option str :=
  match attrib with
  | [] => None
  | (k, v) :: rest => if str_eq k name then Some v else get rest name
  end.

Definition children_of (n : node) : list node :=
  match n with
  | Text _ => []
  | Element _ _ cs => cs
  end.

Definition has_tag (t : str) (n : node) : bool :=
  match n with
  | Text _ => false
  | Element tag _ _ => str_eq tag t
  end.

Definition is_td : node -> bool := has_tag "td".

(** [td.text_content()]: the text of the subtree, in document order. *)
Fixpoint text_content (n : node) : str :=
  match n with
  | Text s => s
  | Element _ _ cs => flat_map text_content cs
  end.

(** The predicate of [base_path]:
    [tr[@class="ResultsOddRow" or @class="ResultsEvenRow"]]. *)
Definition is_result_row (n : node) : bool :=
  match n with
  | Text _ => false
  | Element tag attrib _ =>
      str_eq tag "tr"
      && match get attrib "class" with
         | Some v => str_eq v "ResultsOddRow" || str_eq v "ResultsEvenRow"
         | None => false
         end
  end.

(** [base_path]: every result row of the document, in document order. *)
Fixpoint xpath_rows (n : node) : list node :=
  (if is_result_row n then [n] else [])
  ++ match n with
     | Text _ => []
     | Element _ _ cs => flat_map xpath_rows cs
     end.

(** The children of one element for [base_path + "//td[i]"]: a child is
    selected when its parent lies in a result row ([inrow]) and it is the
    [i]-th [td] among the children; [seen] counts the [td] children passed
    so far and [below] selects in the subtree of a child. *)
Section TdChildren.
Variable i : nat.
Variable inrow : bool.
Variable below : node -> list node.

Fixpoint td_children (cs : list node) (seen : nat) : list node :=
  match cs with
  | [] => []
  | c :: cs' =>
      let seen' := if is_td c then S seen else seen in
      (if inrow && is_td c && Nat.eqb seen' i then [c] else [])
      ++ below c ++ td_children cs' seen'
  end.

End TdChildren.

(** [base_path + "//td[i]"] below [n]: the [i]-th [td] child of every
    element that is a result row or lies inside one.  [inrow] tells whether
    [n] lies inside a result row.  The nodes come in document order, each
    one once. *)
Fixpoint xpath_td (i : nat) (inrow : bool) (n : node) : list node :=
  match n with
  | Text _ => []
  | Element _ _ cs =>
      let inrow' := inrow || is_result_row n in
      td_children i inrow' (xpath_td i inrow') cs 0
  end.

Definition href_of (n : node) : list str :=
  match n with
  | Text _ => []
  | Element _ attrib _ =>
      match get attrib "href" with Some v => [v] | None => [] end
  end.

(** [base_path + "//@href"] below [n]. *)
Fixpoint xpath_href (inrow : bool) (n : node) : list str :=
  match n with
  | Text _ => []
  | Element _ _ cs =>
      let inrow' := inrow || is_result_row n in
      (if inrow' then href_of n else [])
      ++ flat_map (xpath_href inrow') cs
  end.

(** The nodes strictly below [n], in document order. *)
Fixpoint descendants (n : node) : list node :=
  match n with
  | Text _ => []
  | Element _ _ cs => flat_map (fun c => c :: descendants c) cs
  end.

End Html.

(** ** Dates: [datetime.date], [rrule(WEEKLY, ...)] and [strptime] *)

Module Dates.
Import PyStr Re.

(** A [date] is its proleptic Gregorian ordinal ([date.toordinal()]):
    dates compare as their ordinals do and [timedelta(days=n)] adds [n]. *)
Definition date := Z.

Local Open Scope Z_scope.

Definition is_leap (y : Z) : bool :=
  (y mod 4 =? 0) && (negb (y mod 100 =? 0) || (y mod 400 =? 0)).

Definition days_before_year (y : Z) : Z :=
  let y := y - 1 in y * 365 + y / 4 - y / 100 + y / 400.

Definition days_in_month (y m : Z) : Z :=
  if m =? 2 then (if is_leap y then 29 else 28)
  else if (m =? 4) || (m =? 6) || (m =? 9) || (m =? 11) then 30
  else 31.

Fixpoint days_before_month_upto (y : Z) (months : list Z) : Z :=
  match months with
  | [] => 0
  | m :: months' => days_in_month y m + days_before_month_upto y months'
  end.

Definition days_before_month (y m : Z) : Z :=
  days_before_month_upto y (map Z.of_nat (List.seq 1 (Z.to_nat (m - 1)))).

(** [date(y, m, d)], which raises [ValueError] outside the calendar. *)
Definition mkdate (y m d : Z) : option date :=
  if (1 <=? y) && (y <=? 9999) && (1 <=? m) && (m <=? 12)
     && (1 <=? d) && (d <=? days_in_month y m)
  then Some (days_before_year y + days_before_month y m + d)
  else None.

Definition the_date (y m d : Z) : date :=
  match mkdate y m d with Some x => x | None => 0 end.

(** [rrule(WEEKLY, dtstart=..., until=...)]: the occurrences start at
    [dtstart], are seven days apart and stop after [until].  [fuel] bounds
    the number of occurrences. *)
Fixpoint rrule_weekly_from (fuel : nat) (d until : date) : list date :=
  match fuel with
  | O => []
  | S fuel' =>
      if d <=? until then d :: rrule_weekly_from fuel' (d + 7) until
      else []
  end.

Definition rrule_weekly (dtstart until : date) : list date :=
  rrule_weekly_from (Z.to_nat (until - dtstart + 1)) dtstart until.

(** [int(s)] on the digit strings [strptime] extracts. *)
Definition py_int (s : str) : Z :=
  fold_left (fun acc c => 10 * acc + (Z.of_N (code c) - 48)) (lstrip s) 0.

Definition digit_range (lo hi : ascii) : regex := Atom (Range lo hi).

(** The pattern [strptime] builds for the format ["%m/%d/%Y"]. *)
Definition format_mdY : regex :=
  seq [ Group 1 (Alt (Seq (Atom (Lit "1")) (digit_range "0" "2"))
                (Alt (Seq (Atom (Lit "0")) (digit_range "1" "9"))
                     (digit_range "1" "9")));
        Atom (Lit "/");
        Group 2 (Alt (Seq (Atom (Lit "3")) (digit_range "0" "1"))
                (Alt (Seq (digit_range "1" "2") (Atom Decimal))
                (Alt (Seq (Atom (Lit "0")) (digit_range "1" "9"))
                (Alt (digit_range "1" "9")
                     (Seq (Atom (Lit " ")) (digit_range "1" "9"))))));
        Atom (Lit "/");
        Group 3 (seq [Atom Decimal; Atom Decimal; Atom Decimal;
                      Atom Decimal]) ].

(** [datetime.strptime(s, "%m/%d/%Y").date()]; [None] stands for the
    [ValueError] it raises. *)
Definition strptime_mdY (s : str) : option date :=
  match match_at format_mdY None s with
  | Some m =>
      if Nat.eqb (List.length (whole m)) (List.length s)
      then match group m 1, group m 2, group m 3 with
           | Some mo, Some d, Some y => mkdate (py_int y) (py_int mo) (py_int d)
           | _, _, _ => None
           end
      else None
  | None => None
  end.

End Dates.

(** ** The scraper *)

Module Tax.
Import PyStr Re.

(** Values stored in the metadata dictionary by [extract_from_text]:
    [match.group(n)] is a string, or [None] for a group that took no part
    in the match. *)
Inductive pyval : Type :=
| PyNone
| PyStr (s : str).

Definition of_group (g : option str) : pyval :=
  match g with Some s => PyStr s | None => PyNone end.

(** Modelled from the spec: [citation_types] of [juriscraper.lib.models]
    is not part of the sources at hand; the spec gives the citation type
    as an enumeration, of which the scraper uses the member [SPECIALTY]. *)
Inductive citation_type : Type := SPECIALTY.

(** The dictionary under ["Citation"]: a key that is absent is [None]. *)
Record citation := {
  type : citation_type;
  volume : option pyval;
  page : option pyval;
  reporter : option pyval
}.

Record opinion_cluster := { precedential_status : str }.

Record metadata := {
  Citation : citation;
  OpinionCluster : opinion_cluster
}.

Definition set_volume (v : pyval) (m : metadata) : metadata :=
  {| Citation := {| type := type (Citation m); volume := Some v;
                    page := page (Citation m);
                    reporter := reporter (Citation m) |};
     OpinionCluster := OpinionCluster m |}.

Definition set_page (v : pyval) (m : metadata) : metadata :=
  {| Citation := {| type := type (Citation m);
                    volume := volume (Citation m); page := Some v;
                    reporter := reporter (Citation m) |};
     OpinionCluster := OpinionCluster m |}.

Definition set_reporter (v : pyval) (m : metadata) : metadata :=
  {| Citation := {| type := type (Citation m);
                    volume := volume (Citation m);
                    page := page (Citation m); reporter := Some v |};
     OpinionCluster := OpinionCluster m |}.

Definition set_status (s : str) (m : metadata) : metadata :=
  {| Citation := Citation m;
     OpinionCluster := {| precedential_status := s |} |}.

(** [tax_court_reports_regex] *)
Definition tax_court_reports_regex : regex :=
  seq [ Group 1 (Rep (Range "0" "9") 1 (Some 4)); Rep Space 1 None;
        lit "UNITED STATES TAX COURT REPORT"; opt (Lit "S");
        Rep Space 1 None;
        Atom (Lit "("); Group 2 (Rep Decimal 1 (Some 4)); Atom (Lit ")") ].

(** [tax_court_alt_regex] *)
Definition tax_court_alt_regex : regex :=
  Group 1
    (Alt
       (Group 2
          (seq [ lit "T."; opt (Lit " "); lit "C."; Atom Space;
                 Group 3 (Alt (Group 4 (seq [lit "Memo"; opt (Lit ".")]))
                              (Group 5 (lit "Summary Opinion")));
                 Rep Space 1 None;
                 Group 6 (Rep (Range "0" "9") 4 (Some 4));
                 Atom Dot;
                 Group 7 (Rep (Range "0" "9") 1 (Some 3)); WordB ]))
       (seq [ Group 8 (Rep (Range "0" "9") 1 (Some 4)); Rep Space 1 None;
              Group 9 (seq [lit "T."; opt (Lit " "); lit "C. No."]);
              Rep Space 1 None;
              Group 10 (Rep Decimal 1 (Some 4)) ])).

Definition initial_metadata : metadata :=
  {| Citation := {| type := SPECIALTY; volume := None; page := None;
                    reporter := None |};
     OpinionCluster := {| precedential_status := [] |} |}.

(** [extract_from_text], with the two compiled patterns as arguments. *)
Definition extract_with (primary alt : regex) (scraped_text : str)
  : metadata :=
  let metadata := initial_metadata in
  match search primary scraped_text with
  | Some m =>
      let metadata := set_volume (of_group (group m 1)) metadata in
      let metadata := set_page (of_group (group m 2)) metadata in
      let metadata := set_reporter (PyStr "T.C.") metadata in
      set_status "Published" metadata
  | None =>
      match search alt scraped_text with
      | Some m =>
          if contains "No." (whole m)
          then
            let metadata := set_reporter (PyStr "T.C.") metadata in
            let metadata := set_volume (of_group (group m 8)) metadata in
            let metadata := set_page (of_group (group m 10)) metadata in
            set_status "Published" metadata
          else
            let metadata :=
              if contains "Memo" (whole m)
              then set_reporter (PyStr "T.C. Memo.") metadata
              else if contains "Summary" (whole m)
                   then set_reporter (PyStr "T.C. Summary Opinion") metadata
                   else metadata in
            let metadata := set_volume (of_group (group m 6)) metadata in
            let metadata := set_page (of_group (group m 7)) metadata in
            set_status "Unpublished" metadata
      | None => metadata
      end
  end.

Definition extract_from_text (scraped_text : str) : metadata :=
  extract_with tax_court_reports_regex tax_court_alt_regex scraped_text.

(** *** The field getters *)

Section Getters.
Import Html Dates.

(** [datetime.strptime(_, "%m/%d/%Y").date()] of the standard library;
    [None] stands for the [ValueError] it raises. *)
Variable strptime : str -> option date.

(** [self.html] *)
Variable html : node.

Definition rewrite_href (href : str) : str :=
  if contains "?ID" href
  then href
  else replace "OpinionSearch.aspx#" "OpinionViewer.aspx?ID=" href.

Definition _get_download_urls : list str :=
  map rewrite_href (xpath_href false html).

Definition _get_case_names : list str :=
  map (fun td => strip (text_content td) ++ " v. Commissioner")
      (xpath_td 1 false html).

Definition _get_case_name_shorts : list str :=
  repeat [] (List.length _get_case_names).

Definition classify (status : str) : str :=
  if contains "opinion" status then "Published"
  else if contains "memorandum" status then "Unpublished"
  else if contains "summary" status then "Unpublished"
  else "Unknown".

Definition _get_precedential_statuses : list str :=
  map (fun td => classify (lower (strip (text_content td))))
      (xpath_td 2 false html).

(** The loop stops at the first date that does not parse: the
    [ValueError] leaves the getter. *)
Fixpoint parse_dates (tds : list node) : option (list date) :=
  match tds with
  | [] => Some []
  | td :: tds' =>
      match strptime (strip (text_content td)) with
      | None => None
      | Some d =>
          match parse_dates tds' with
          | None => None
          | Some ds => Some (d :: ds)
          end
      end
  end.

Definition _get_case_dates : option (list date) :=
  parse_dates (xpath_td 3 false html).

End Getters.

(** *** The back-scrape iterable and driver *)

Import Dates.

(** [self.back_scrape_iterable] *)
Definition back_scrape_iterable : list date :=
  rrule_weekly (the_date 1995 9 25) (the_date 2018 11 13).

(** What a call returns: a value, or an exception that leaves it. *)
Inductive outcome (A : Type) : Type :=
| Returned (a : A)
| Raised.
Arguments Returned {A} a.
Arguments Raised {A}.

(** The fields of the [Site] object the driver touches, and the searches
    submitted so far (first and last day of each), oldest first. *)
Record site := {
  backwards_days : Z;
  case_date : date;
  html : option Html.node;
  status : option Z;
  fetched : list (date * date)
}.

Section Driver.

(** The remote search: what the [n]-th submitted search for a range of
    days answers.  [Returned None] is a download that yields no
    document, [Raised] a failure such as the wait timing out. *)
Variable remote : nat -> date * date -> outcome (option Html.node).

(** [self._download()]: one search for the days
    [case_date - backwards_days .. case_date]. *)
Definition _download (s : site) : site * outcome (option Html.node) :=
  let range := (case_date s - backwards_days s, case_date s)%Z in
  ({| backwards_days := backwards_days s; case_date := case_date s;
      html := html s; status := status s;
      fetched := fetched s ++ [range] |},
   remote (List.length (fetched s)) range).

Definition _download_backwards (d : date) (s : site)
  : site * outcome unit :=
  let s := {| backwards_days := 7; case_date := case_date s;
              html := html s; status := status s;
              fetched := fetched s |} in
  let s := {| backwards_days := backwards_days s; case_date := d;
              html := html s; status := status s;
              fetched := fetched s |} in
  match _download s with
  | (s, Raised) => (s, Raised)
  | (s, Returned h) =>
      let s := {| backwards_days := backwards_days s;
                  case_date := case_date s;
                  html := h; status := status s;
                  fetched := fetched s |} in
      match h with
      | Some _ =>
          ({| backwards_days := backwards_days s;
              case_date := case_date s;
              html := html s; status := Some 200%Z;
              fetched := fetched s |}, Returned tt)
      | None => (s, Returned tt)
      end
  end.

(** Modelled from the spec: the download step of the framework's
    [parse] method ([AbstractSite.parse], which is not part of the
    sources at hand).  The comment in [_download_backwards] and the
    spec's back-scrape driver say that a recorded status keeps it from
    running the download a second time. *)
Definition parse_download_step (s : site) : site * outcome unit :=
  match status s with
  | Some _ => (s, Returned tt)
  | None =>
      match _download s with
      | (s, Raised) => (s, Raised)
      | (s, Returned h) =>
          ({| backwards_days := backwards_days s;
              case_date := case_date s;
              html := h; status := status s;
              fetched := fetched s |}, Returned tt)
      end
  end.

End Driver.

End Tax.

(** ** What a match means *)

Module Spec.
Import PyStr Re.

(** [needle] occurs in [s]. *)
Definition occurs (needle s : str) : Prop :=
  exists pre post, s = pre ++ needle ++ post.

(** The character before the position reached after reading [w]. *)
Definition last_of (prev : option ascii) (w : str) : option ascii :=
  fold_left (fun _ x => Some x) w prev.

Definition within (hi : option nat) (n : nat) : Prop :=
  match hi with Some h => n <= h | None => True end.

Definition all_ok (a : atom) (w : str) : Prop :=
  Forall (fun x => atom_ok a x = true) w.

(** [sem r prev w aft c c']: the pattern [r] reads exactly [w], between a
    position whose previous character is [prev] and the remaining text
    [aft], and turns the captures [c] into [c']. *)
Fixpoint sem (r : regex) (prev : option ascii) (w aft : str) (c c' : caps)
  : Prop :=
  match r with
  | Eps => w = [] /\ c' = c
  | Atom a => exists x, w = [x] /\ atom_ok a x = true /\ c' = c
  | Rep a lo hi =>
      all_ok a w /\ lo <= List.length w /\ within hi (List.length w)
      /\ c' = c
  | WordB => w = [] /\ at_boundary prev aft = true /\ c' = c
  | Group n r' => exists c0, sem r' prev w aft c c0 /\ c' = (n, w) :: c0
  | Seq r1 r2 =>
      exists w1 w2 c1,
        w = w1 ++ w2 /\ sem r1 prev w1 (w2 ++ aft) c c1
        /\ sem r2 (last_of prev w1) w2 aft c1 c'
  | Alt r1 r2 => sem r1 prev w aft c c' \/ sem r2 prev w aft c c'
  end.

(** Equality up to letter case. *)
Definition ci_eq (a b : str) : Prop := lower a = lower b.

(** The metadata with every citation field set. *)
Definition cited (rep vol pg : Tax.pyval) (status : str) : Tax.metadata :=
  {| Tax.Citation := {| Tax.type := Tax.SPECIALTY; Tax.volume := Some vol;
                        Tax.page := Some pg; Tax.reporter := Some rep |};
     Tax.OpinionCluster := {| Tax.precedential_status := status |} |}.

(** The metadata of a Memorandum/Summary read-out that set no reporter. *)
Definition unpublished_without_reporter (vol pg : Tax.pyval)
  : Tax.metadata :=
  {| Tax.Citation := {| Tax.type := Tax.SPECIALTY; Tax.volume := Some vol;
                        Tax.page := Some pg; Tax.reporter := None |};
     Tax.OpinionCluster := {| Tax.precedential_status := "Unpublished" |} |}.

(** The number of weekly occurrences from [d] that do not pass [until]. *)
Definition occurrences (d until : Dates.date) : nat :=
  if (d <=? until)%Z then Z.to_nat ((until - d) / 7 + 1) else 0.

(** [n] dates from [d] on, seven days apart. *)
Definition weekly (d : Dates.date) (n : nat) : list Dates.date :=
  map (fun k => (d + 7 * Z.of_nat k)%Z) (List.seq 0 n).

(** A remote search that always answers with a document. *)
Definition always_found : nat -> Dates.date * Dates.date
                          -> Tax.outcome (option Html.node) :=
  fun _ _ => Tax.Returned (Some (Html.Text [])).

(** The [Site] object before any download. *)
Definition fresh_site : Tax.site :=
  {| Tax.backwards_days := 14; Tax.case_date := Dates.the_date 2018 11 13;
     Tax.html := None; Tax.status := None; Tax.fetched := [] |}.

(** The site after the driver ran once, and twice, for 9 January 2012. *)
Definition after_first_call : Tax.site :=
  fst (Tax._download_backwards always_found (Dates.the_date 2012 1 9)
                               fresh_site).

Definition after_second_call : Tax.site :=
  fst (Tax._download_backwards always_found (Dates.the_date 2012 1 9)
                               after_first_call).

(** The window of the back-scrape iterable. *)
Definition window_start : Dates.date := Dates.the_date 1995 9 25.
Definition window_end : Dates.date := Dates.the_date 2018 11 13.

(** *** Well-formed result rows *)

(** Neither a table cell nor a result row, nor anything below. *)
Fixpoint plain (n : Html.node) : bool :=
  negb (Html.is_td n) && negb (Html.is_result_row n)
  && match n with
     | Html.Text _ => true
     | Html.Element _ _ cs => forallb plain cs
     end.

(** A child of a row: a column that holds no cells or rows of its own, or
    something that is no column and holds none either. *)
Definition cell_ok (c : Html.node) : bool :=
  if Html.is_td c then forallb plain (Html.children_of c) else plain c.

(** The columns of a row, its [i]-th column and the hrefs in it. *)
Definition row_cells (r : Html.node) : list Html.node :=
  filter Html.is_td (Html.children_of r).

Definition cell (i : nat) (r : Html.node) : Html.node :=
  nth (i - 1) (row_cells r) (Html.Text []).

Definition row_hrefs (r : Html.node) : list str :=
  flat_map Html.href_of (r :: Html.descendants r).

Definition row_href (r : Html.node) : str := hd [] (row_hrefs r).

(** A well-formed row has three columns, which hold no cells or rows of
    their own, one anchor, and a filing date that parses. *)
Definition well_formed_row (strptime : str -> option Dates.date)
           (r : Html.node) : Prop :=
  List.length (row_cells r) = 3
  /\ forallb cell_ok (Html.children_of r) = true
  /\ List.length (row_hrefs r) = 1
  /\ strptime (strip (Html.text_content (cell 3 r))) <> None.

(** Induction on a document, with the hypothesis for every child. *)
Fixpoint node_induction (P : Html.node -> Prop)
         (Htext : forall s, P (Html.Text s))
         (Helem : forall tag attrib cs,
             Forall P cs -> P (Html.Element tag attrib cs))
         (n : Html.node) : P n :=
  match n with
  | Html.Text s => Htext s
  | Html.Element tag attrib cs =>
      Helem tag attrib cs
            ((fix all (cs : list Html.node) : Forall P cs :=
                match cs with
                | [] => Forall_nil P
                | c :: cs' =>
                    Forall_cons c (node_induction P Htext Helem c) (all cs')
                end) cs)
  end.

(** *** A results page with two rows *)

Definition sample_row (marker name kind filed href : str) : Html.node :=
  Html.Element "tr" [("class" : str, marker)]
    [ Html.Text " ";
      Html.Element "td" []
        [Html.Element "a" [("href" : str, href)] [Html.Text name]];
      Html.Element "td" [] [Html.Text kind];
      Html.Element "td" [] [Html.Text filed] ].

Definition sample_page : Html.node :=
  Html.Element "html" []
    [ Html.Element "body" []
        [ Html.Element "table" [("id" : str, "results" : str)]
            [ Html.Element "tr" [("class" : str, "ResultsHeader" : str)]
                [ Html.Element "td" [] [Html.Text "Case Name"];
                  Html.Element "td" [] [Html.Text "Opinion Type"];
                  Html.Element "td" [] [Html.Text "Date"] ];
              sample_row "ResultsOddRow" " Estate of Smith "
                "T.C. Opinion" "11/05/2012"
                "https://www.ustaxcourt.gov/UstcInOp/OpinionViewer.aspx?ID=11815";
              sample_row "ResultsEvenRow" "Jones"
                " Memorandum Opinion " "11/6/2012"
                "https://www.ustaxcourt.gov/UstcInOp/OpinionSearch.aspx#11813"
            ] ] ].

(** The text at a position does not begin with a character of the class. *)
Definition head_fails (p : ascii -> bool) (rest : str) : Prop :=
  match rest with
  | [] => True
  | y :: _ => p y = false
  end.

(** A greedy repetition that has read [n] characters can read no more. *)
Definition stops (p : ascii -> bool) (hi : option nat) (n : nat) (rest : str)
  : Prop :=
  hi = Some n \/ head_fails p rest.

(** The metadata the Memorandum/Summary branch leaves: the reporter is
    chosen by what occurs in the matched text, "Memo" first, and is not set
    when neither "Memo" nor "Summary" occurs. *)
Definition memorandum_readout (matched : str) (vol pg : Tax.pyval)
  : Tax.metadata :=
  {| Tax.Citation :=
       {| Tax.type := Tax.SPECIALTY; Tax.volume := Some vol;
          Tax.page := Some pg;
          Tax.reporter :=
            if contains "Memo" matched then Some (Tax.PyStr "T.C. Memo.")
            else if contains "Summary" matched
                 then Some (Tax.PyStr "T.C. Summary Opinion")
                 else None |};
     Tax.OpinionCluster := {| Tax.precedential_status := "Unpublished" |} |}.

(** A citation in the primary form: volume, white space, the reporter's
    name in any letter case, white space, the page in parentheses. *)
Definition primary_citation (v w1 l w2 p : str) : Prop :=
  all_ok (Range "0" "9") v /\ 1 <= List.length v <= 4
  /\ all_ok Space w1 /\ 1 <= List.length w1
  /\ (ci_eq l "UNITED STATES TAX COURT REPORT"
      \/ ci_eq l "UNITED STATES TAX COURT REPORTS")
  /\ all_ok Space w2 /\ 1 <= List.length w2
  /\ all_ok Decimal p /\ 1 <= List.length p <= 4.

(** No white space at either end. *)
Definition trimmed (s : str) : Prop :=
  (forall c rest, s = c :: rest -> is_space c = false)
  /\ (forall front c, s = front ++ [c] -> is_space c = false).

(** A results page whose second row has a filing date that is no date. *)
Definition misdated_page : Html.node :=
  Html.Element "table" []
    [ sample_row "ResultsOddRow" "Smith" "T.C. Opinion" "11/05/2012"
        "https://www.ustaxcourt.gov/UstcInOp/OpinionViewer.aspx?ID=1";
      sample_row "ResultsEvenRow" "Jones" "Summary Opinion" "11/31/2012"
        "https://www.ustaxcourt.gov/UstcInOp/OpinionSearch.aspx#2" ].

(** *** Rows with any number of columns *)

(** A row whose children hold no cells or rows of their own. *)
Definition tidy_row (r : Html.node) : Prop :=
  forallb cell_ok (Html.children_of r) = true.

(** A row with no result row inside it. *)
Definition unnested_row (r : Html.node) : Prop :=
  flat_map Html.xpath_rows (Html.children_of r) = [].

(** The [i]-th column of a row, if it has one. *)
Definition column (i : nat) (r : Html.node) : list Html.node :=
  match nth_error (row_cells r) (i - 1) with
  | Some c => [c]
  | None => []
  end.



(** A remote search that always fails, and one that returns no document. *)
Definition always_raises : nat -> Dates.date * Dates.date
                           -> Tax.outcome (option Html.node) :=
  fun _ _ => Tax.Raised.

Definition never_found : nat -> Dates.date * Dates.date
                         -> Tax.outcome (option Html.node) :=
  fun _ _ => Tax.Returned None.

(** No end of [new] is a beginning of [old]: an occurrence of [old] cannot
    begin inside an inserted [new] and end after it. *)
Definition no_overlap (new old : str) : bool :=
  forallb (fun i => negb (startswith (skipn i new) old))
          (List.seq 0 (List.length new)).

(** A citation in the numbered form: volume, white space, "T.C. No.",
    white space, page. *)
Definition numbered_citation (v w1 w2 p : str) : Prop :=
  all_ok (Range "0" "9") v /\ 1 <= List.length v <= 4
  /\ all_ok Space w1 /\ 1 <= List.length w1
  /\ all_ok Space w2 /\ 1 <= List.length w2
  /\ all_ok Decimal p /\ 1 <= List.length p <= 4.

(** A results page whose one row has three columns and one anchor, and a
    table inside its first column. *)
Definition nested_page : Html.node :=
  Html.Element "table" []
    [ Html.Element "tr" [("class" : str, "ResultsOddRow" : str)]
        [ Html.Element "td" []
            [ Html.Element "a"
                [("href" : str,
                  "https://www.ustaxcourt.gov/UstcInOp/OpinionViewer.aspx?ID=1"
                  : str)]
                [Html.Text "Smith"];
              Html.Element "table" []
                [ Html.Element "tr" []
                    [Html.Element "td" [] [Html.Text "(order)"]] ] ];
          Html.Element "td" [] [Html.Text "T.C. Opinion"];
          Html.Element "td" [] [Html.Text "11/05/2012"] ] ].

End Spec.

Import PyStr Re Html Dates Tax Spec.

(** ** The matcher finds only what the pattern describes *)

Section MatcherSound.

Lemma last_of_app prev w1 w2 :
  last_of prev (w1 ++ w2) = last_of (last_of prev w1) w2.
Proof. unfold last_of. apply fold_left_app. Qed.

Lemma firstn_consumed (w aft : str) :
  firstn (List.length (w ++ aft) - List.length aft) (w ++ aft) = w.
Proof.
  rewrite length_app, Nat.add_sub.
  rewrite firstn_app, Nat.sub_diag, firstn_all. simpl.
  apply app_nil_r.
Qed.

Lemma orelse_some {A} (x y : option A) (v : A) :
  orelse x y = Some v -> x = Some v \/ (x = None /\ y = Some v).
Proof. destruct x; simpl; auto. Qed.

Lemma rep_greedy_sound p rest :
  forall lo hi k prev res,
    rep_greedy p lo hi k prev rest = Some res ->
    exists w aft,
      rest = w ++ aft /\ Forall (fun x => p x = true) w
      /\ lo <= List.length w /\ within hi (List.length w)
      /\ k (last_of prev w) aft = Some res.
Proof.
  assert (Hstop : forall lo hi (k : option ascii -> str -> option match_object)
                         prev (s : str) res,
             match lo with 0 => k prev s | S _ => None end = Some res ->
             exists w aft,
               s = w ++ aft /\ Forall (fun x => p x = true) w
               /\ lo <= List.length w /\ within hi (List.length w)
               /\ k (last_of prev w) aft = Some res).
  { intros lo hi k prev s res H. destruct lo; [|discriminate].
    exists [], s. repeat split; auto.
    destruct hi; simpl; auto with arith. }
  induction rest as [|x rest IH]; intros lo hi k prev res H; simpl in H.
  - now apply Hstop.
  - destruct (p x && hi_open hi) eqn:E; [|now apply Hstop].
    apply andb_true_iff in E. destruct E as [Hp Hhi].
    apply orelse_some in H. destruct H as [H|[_ H]]; [|now apply Hstop].
    apply IH in H. destruct H as (w & aft & -> & Hall & Hlo & Hwi & Hk).
    exists (x :: w), aft. repeat split; auto.
    + simpl. lia.
    + destruct hi as [[|h]|]; simpl in *; try discriminate; auto. lia.
Qed.

Lemma run_sound r :
  forall k prev rest c res,
    run r k prev rest c = Some res ->
    exists w aft c',
      rest = w ++ aft /\ sem r prev w aft c c'
      /\ k (last_of prev w) aft c' = Some res.
Proof.
  induction r as [|a|a lo hi| |n r IH|r1 IH1 r2 IH2|r1 IH1 r2 IH2];
    intros k prev rest c res H; simpl in H.
  - exists [], rest, c. simpl. auto.
  - destruct rest as [|x rest]; [discriminate|].
    destruct (atom_ok a x) eqn:E; [|discriminate].
    exists [x], rest, c. simpl. eauto 6.
  - apply rep_greedy_sound in H.
    destruct H as (w & aft & -> & Hall & Hlo & Hwi & Hk).
    exists w, aft, c. simpl. unfold all_ok. auto 6.
  - destruct (at_boundary prev rest) eqn:E; [|discriminate].
    exists [], rest, c. simpl. auto.
  - apply IH in H. destruct H as (w & aft & c' & -> & Hs & Hk).
    rewrite firstn_consumed in Hk.
    exists w, aft, ((n, w) :: c'). simpl. eauto.
  - apply IH1 in H. destruct H as (w1 & aft1 & c1 & -> & Hs1 & Hk).
    apply IH2 in Hk. destruct Hk as (w2 & aft & c2 & -> & Hs2 & Hk).
    exists (w1 ++ w2), aft, c2. rewrite last_of_app, <- app_assoc.
    simpl. eauto 10.
  - apply orelse_some in H. destruct H as [H|[_ H]].
    + apply IH1 in H. destruct H as (w & aft & c' & -> & Hs & Hk).
      exists w, aft, c'. simpl. auto.
    + apply IH2 in H. destruct H as (w & aft & c' & -> & Hs & Hk).
      exists w, aft, c'. simpl. auto.
Qed.

Lemma match_at_sound r prev rest m :
  match_at r prev rest = Some m ->
  exists w aft c',
    rest = w ++ aft /\ sem r prev w aft [] c'
    /\ m = {| whole := w; groups := c' |}.
Proof.
  unfold match_at. intros H. apply run_sound in H.
  destruct H as (w & aft & c' & -> & Hs & Hk).
  rewrite firstn_consumed in Hk. injection Hk as <-.
  exists w, aft, c'. auto.
Qed.

(** [re.search] returns the match at the first position that has one. *)
Lemma search_from_leftmost r rest :
  forall prev m,
    search_from r prev rest = Some m ->
    exists pre rest',
      rest = pre ++ rest'
      /\ match_at r (last_of prev pre) rest' = Some m
      /\ forall pre0 rest0,
          rest = pre0 ++ rest0 -> List.length pre0 < List.length pre ->
          match_at r (last_of prev pre0) rest0 = None.
Proof.
  induction rest as [|x rest IH]; intros prev m H; simpl in H.
  - apply orelse_some in H. destruct H as [H|[_ H]]; [|discriminate].
    exists [], []. repeat split; auto. simpl. intros; lia.
  - apply orelse_some in H. destruct H as [H|[Hno H]].
    + exists [], (x :: rest). repeat split; auto. simpl. intros; lia.
    + apply IH in H. destruct H as (pre & rest' & -> & Hm & Hleft).
      exists (x :: pre), rest'. repeat split; auto.
      intros [|y pre0] rest0 Heq Hlen.
      * simpl in Heq. subst rest0. exact Hno.
      * simpl in Heq. injection Heq as <- Heq. simpl.
        apply Hleft; auto. simpl in Hlen. lia.
Qed.

Lemma search_sound r s m :
  search r s = Some m ->
  exists pre w aft c',
    s = pre ++ w ++ aft /\ sem r (last_of None pre) w aft [] c'
    /\ m = {| whole := w; groups := c' |}.
Proof.
  intros H. apply search_from_leftmost in H.
  destruct H as (pre & rest' & -> & Hm & _).
  apply match_at_sound in Hm. destruct Hm as (w & aft & c' & -> & Hs & ->).
  exists pre, w, aft, c'. auto.
Qed.

End MatcherSound.

(** ** Facts about single characters, by enumeration *)

Ltac each_char x :=
  destruct x as [[] [] [] [] [] [] [] []].

Ltac open_sem H :=
  repeat match type of H with
         | exists _, _ => let x := fresh "x" in destruct H as [x H]
         | _ /\ _ => let H1 := fresh "H" in destruct H as [H1 H]; try open_sem H1
         end.

Section Characters.

Lemma lit_paren_open x : atom_ok (Lit "(") x = true -> x = "("%char.
Proof. each_char x; vm_compute; congruence. Qed.

Lemma lit_paren_close x : atom_ok (Lit ")") x = true -> x = ")"%char.
Proof. each_char x; vm_compute; congruence. Qed.

End Characters.

Section Primary.

Lemma lit_sem s :
  forall prev w aft c c',
    sem (lit s) prev w aft c c' -> ci_eq w s /\ c' = c.
Proof.
  unfold ci_eq.
  induction s as [|a s IH]; intros prev w aft c c' H.
  - simpl in H. destruct H as [-> ->]. auto.
  - destruct s as [|b s].
    + simpl in H. destruct H as (x & -> & Hx & ->).
      apply Ascii.eqb_eq in Hx. simpl. now rewrite Hx.
    + change (lit (a :: b :: s))
        with (Seq (Atom (Lit a)) (lit (b :: s))) in H.
      simpl in H.
      destruct H as (w1 & w2 & c1 & -> & (x & -> & Hx & ->) & H2).
      apply IH in H2. destruct H2 as [H2 ->].
      apply Ascii.eqb_eq in Hx. simpl in *. now rewrite Hx, H2.
Qed.

Lemma opt_sem a prev w aft c c' :
  sem (opt a) prev w aft c c' ->
  (w = [] \/ exists x, w = [x] /\ atom_ok a x = true) /\ c' = c.
Proof.
  simpl. intros (Hall & _ & Hhi & ->). split; auto.
  destruct w as [|x [|y w]]; simpl in Hhi; auto; [|lia].
  right. exists x. split; auto. now inversion Hall.
Qed.

Lemma ci_eq_app a b c d : ci_eq a b -> ci_eq c d -> ci_eq (a ++ c) (b ++ d).
Proof. unfold ci_eq, lower. intros H1 H2. now rewrite !map_app, H1, H2. Qed.

(** What the primary pattern reads, and what it captures. *)
Lemma primary_sem prev w aft c c' :
  sem tax_court_reports_regex prev w aft c c' ->
  exists v w1 l w2 p,
    w = v ++ w1 ++ l ++ w2 ++ "(" ++ p ++ ")"
    /\ c' = (2, p) :: (1, v) :: c
    /\ all_ok (Range "0" "9") v /\ 1 <= List.length v <= 4
    /\ all_ok Space w1 /\ 1 <= List.length w1
    /\ (ci_eq l "UNITED STATES TAX COURT REPORT"
        \/ ci_eq l "UNITED STATES TAX COURT REPORTS")
    /\ all_ok Space w2 /\ 1 <= List.length w2
    /\ all_ok Decimal p /\ 1 <= List.length p <= 4.
Proof.
  unfold tax_court_reports_regex. cbn [seq sem]. intros H.
  destruct H as (v & ? & ? & -> & (? & (Hv & Hv1 & Hv4 & ->) & ->) & H).
  destruct H as (w1 & ? & ? & -> & (Hw1 & Hw1n & _ & ->) & H).
  destruct H as (l & ? & ? & -> & Hl & H).
  apply lit_sem in Hl. destruct Hl as [Hl ->].
  destruct H as (s & ? & ? & -> & Hs & H).
  apply opt_sem in Hs. destruct Hs as [Hs ->].
  destruct H as (w2 & ? & ? & -> & (Hw2 & Hw2n & _ & ->) & H).
  destruct H as (? & ? & ? & -> & (xo & -> & Hx & ->) & H).
  destruct H as (p & ? & ? & -> & (? & (Hp & Hp1 & Hp4 & ->) & ->) & H).
  destruct H as (y & -> & Hy & ->).
  apply lit_paren_open in Hx. apply lit_paren_close in Hy. subst xo y.
  exists v, w1, (l ++ s), w2, p.
  rewrite <- !app_assoc. simpl in Hv4, Hp4.
  repeat split; auto.
  destruct Hs as [->|(x & -> & Hx)].
  - left. now rewrite app_nil_r.
  - right. change (list_ascii_of_string "UNITED STATES TAX COURT REPORTS")
      with ("UNITED STATES TAX COURT REPORT" ++ ["S"%char]).
    apply ci_eq_app; auto. unfold ci_eq. simpl.
    simpl in Hx. apply Ascii.eqb_eq in Hx. now rewrite Hx.
Qed.

End Primary.

(** ** Citation extraction *)

Section Extraction.

Lemma extract_primary alt text m :
  search tax_court_reports_regex text = Some m ->
  extract_with tax_court_reports_regex alt text
  = cited (PyStr "T.C.") (of_group (group m 1)) (of_group (group m 2))
          "Published".
Proof. unfold extract_with. intros ->. reflexivity. Qed.

(** C1: when the primary pattern matches, the result is read off its first
    match: the volume is the run of one to four digits before the
    reporter's name, the page is the run of one to four digits between the
    parentheses, the reporter is T.C. and the status is Published, whatever
    the alternate pattern is. *)
Theorem primary_match_determines_result text m :
  search tax_court_reports_regex text = Some m ->
  exists pre v w1 l w2 p post,
    text = pre ++ whole m ++ post
    /\ (forall pre0 rest0,
           text = pre0 ++ rest0 -> List.length pre0 < List.length pre ->
           match_at tax_court_reports_regex (last_of None pre0) rest0
           = None)
    /\ whole m = v ++ w1 ++ l ++ w2 ++ "(" ++ p ++ ")"
    /\ group m 1 = Some v /\ group m 2 = Some p
    /\ all_ok (Range "0" "9") v /\ 1 <= List.length v <= 4
    /\ all_ok Space w1 /\ 1 <= List.length w1
    /\ (ci_eq l "UNITED STATES TAX COURT REPORT"
        \/ ci_eq l "UNITED STATES TAX COURT REPORTS")
    /\ all_ok Space w2 /\ 1 <= List.length w2
    /\ all_ok Decimal p /\ 1 <= List.length p <= 4
    /\ extract_from_text text
       = cited (PyStr "T.C.") (PyStr v) (PyStr p) "Published"
    /\ forall alt,
        extract_with tax_court_reports_regex alt text
        = extract_from_text text.
Proof.
  intros H. pose proof (extract_primary tax_court_alt_regex _ _ H) as Hx.
  pose proof (fun alt => extract_primary alt _ _ H) as Hall.
  apply search_from_leftmost in H.
  destruct H as (pre & rest & -> & Hm & Hleft).
  apply match_at_sound in Hm.
  destruct Hm as (w & post & c' & -> & Hs & ->).
  apply primary_sem in Hs.
  destruct Hs as (v & w1 & l & w2 & p & -> & -> & Hs).
  exists pre, v, w1, l, w2, p, post. simpl whole.
  unfold extract_from_text. rewrite Hx.
  split; [reflexivity|]. split; [exact Hleft|].
  split; [reflexivity|]. split; [reflexivity|]. split; [reflexivity|].
  repeat (destruct Hs as [? Hs]; split; [assumption|]).
  split; [assumption|]. split; [reflexivity|].
  intros alt. now rewrite Hall.
Qed.

Lemma primary_match_determines_result_witness :
  exists m,
    search tax_court_reports_regex "138 United States Tax Court Report (1)"
    = Some m
    /\ extract_from_text "138 United States Tax Court Report (1)"
       = cited (PyStr "T.C.") (PyStr "138") (PyStr "1") "Published".
Proof.
  eexists. split; [vm_compute; reflexivity|].
  destruct (primary_match_determines_result
              "138 United States Tax Court Report (1)" _ eq_refl)
    as (pre & v & w1 & l & w2 & p & post & _ & _ & _ & Hv & Hp & H).
  vm_compute in Hv, Hp. injection Hv as <-. injection Hp as <-.
  apply H.
Defined.

(** C4: when neither pattern matches, the metadata comes back as it was
    created: no volume, page or reporter, and an empty status. *)
Theorem no_match_leaves_metadata_empty text :
  search tax_court_reports_regex text = None ->
  search tax_court_alt_regex text = None ->
  extract_from_text text = initial_metadata
  /\ volume (Citation (extract_from_text text)) = None
  /\ page (Citation (extract_from_text text)) = None
  /\ reporter (Citation (extract_from_text text)) = None
  /\ precedential_status (OpinionCluster (extract_from_text text)) = [].
Proof.
  intros H1 H2. unfold extract_from_text, extract_with.
  rewrite H1, H2. repeat split.
Qed.

Lemma no_match_leaves_metadata_empty_witness :
  extract_from_text "Petitioner v. Commissioner of Internal Revenue"
  = initial_metadata.
Proof.
  apply (no_match_leaves_metadata_empty
           "Petitioner v. Commissioner of Internal Revenue");
    vm_compute; reflexivity.
Defined.

End Extraction.

(** ** Alternate matches in another letter case *)

Section LetterCase.

(** C10: the alternate pattern matches lower-case citations, but the tests
    for "No.", "Memo" and "Summary" on the matched text respect case: the
    Memorandum/Summary branch is taken, the status is Unpublished and no
    reporter is set; for a lower-case numbered opinion the volume and page
    are read from groups 6 and 7, which took no part in the match. *)
Theorem lowercase_alternate_match_is_misread :
  (search tax_court_reports_regex "t.c. memo 2012-1" = None
   /\ (exists m,
          search tax_court_alt_regex "t.c. memo 2012-1" = Some m
          /\ whole m = "t.c. memo 2012-1"
          /\ contains "No." (whole m) = false
          /\ contains "Memo" (whole m) = false
          /\ contains "Summary" (whole m) = false)
   /\ extract_from_text "t.c. memo 2012-1"
      = unpublished_without_reporter (PyStr "2012") (PyStr "1"))
  /\ (search tax_court_reports_regex "45 t.c. no. 3" = None
      /\ (exists m,
             search tax_court_alt_regex "45 t.c. no. 3" = Some m
             /\ whole m = "45 t.c. no. 3"
             /\ contains "No." (whole m) = false
             /\ group m 8 = Some (list_ascii_of_string "45")
             /\ group m 10 = Some (list_ascii_of_string "3")
             /\ group m 6 = None /\ group m 7 = None)
      /\ extract_from_text "45 t.c. no. 3"
         = unpublished_without_reporter PyNone PyNone).
Proof.
  split; (split; [vm_compute; reflexivity|]);
    (split; [eexists; vm_compute; repeat split|vm_compute; reflexivity]).
Qed.

End LetterCase.

(** ** The back-scrape iterable *)

Section Weekly.
Local Open Scope Z_scope.

Lemma occurrences_step d until :
  d <= until -> occurrences d until = S (occurrences (d + 7) until).
Proof.
  intros H. unfold occurrences.
  destruct (Z.leb_spec d until); [|lia].
  destruct (Z.leb_spec (d + 7) until).
  - replace (until - d) with ((until - (d + 7)) + 1 * 7) by lia.
    rewrite Z.div_add by lia.
    assert (0 <= (until - (d + 7)) / 7) by (apply Z.div_pos; lia).
    lia.
  - rewrite Z.div_small by lia. reflexivity.
Qed.

Lemma weekly_step d n : weekly d (S n) = d :: weekly (d + 7) n.
Proof.
  unfold weekly. cbn [List.seq map]. f_equal; [lia|].
  rewrite <- seq_shift, map_map. apply map_ext. intros k. lia.
Qed.

(** The loop yields every occurrence as soon as the fuel covers the days
    of the window. *)
Lemma rrule_weekly_from_weekly fuel :
  forall d until,
    until - d + 1 <= Z.of_nat fuel ->
    rrule_weekly_from fuel d until = weekly d (occurrences d until).
Proof.
  induction fuel as [|fuel IH]; intros d until Hfuel.
  - simpl. unfold occurrences.
    destruct (Z.leb_spec d until); [lia|reflexivity].
  - simpl. destruct (Z.leb_spec d until) as [Hle|Hgt].
    + rewrite occurrences_step, weekly_step by assumption.
      f_equal. apply IH. lia.
    + unfold occurrences. destruct (Z.leb_spec d until); [lia|reflexivity].
Qed.

Lemma rrule_weekly_weekly dtstart until :
  rrule_weekly dtstart until = weekly dtstart (occurrences dtstart until).
Proof. unfold rrule_weekly. apply rrule_weekly_from_weekly. lia. Qed.

Lemma weekly_length d n : List.length (weekly d n) = n.
Proof. unfold weekly. now rewrite length_map, length_seq. Qed.

Lemma weekly_sorted d n : StronglySorted Z.lt (weekly d n).
Proof.
  revert d. induction n as [|n IH]; intros d.
  - constructor.
  - rewrite weekly_step. constructor; [apply IH|].
    unfold weekly. apply Forall_forall. intros x Hx.
    apply in_map_iff in Hx. destruct Hx as (k & <- & _). lia.
Qed.

Lemma weekly_bounded d until :
  Forall (fun x => d <= x <= until) (weekly d (occurrences d until)).
Proof.
  unfold weekly, occurrences. apply Forall_forall. intros x Hx.
  apply in_map_iff in Hx. destruct Hx as (k & <- & Hk).
  apply in_seq in Hk. destruct (Z.leb_spec d until); [|simpl in Hk; lia].
  assert (0 <= (until - d) / 7) by (apply Z.div_pos; lia).
  assert (7 * ((until - d) / 7) <= until - d)
    by (apply Z.mul_div_le; lia).
  lia.
Qed.

(** C8: the iterable holds floor((end - start) / 7) + 1 dates, 1208 of
    them, starting at 25 September 1995, seven days apart and so strictly
    increasing, none after 13 November 2018, where the next one would
    be. *)
Theorem back_scrape_iterable_is_weekly :
  back_scrape_iterable
  = map (fun k => window_start + 7 * Z.of_nat k)
        (List.seq 0 (Z.to_nat ((window_end - window_start) / 7 + 1)))
  /\ List.length back_scrape_iterable
     = Z.to_nat ((window_end - window_start) / 7 + 1)
  /\ List.length back_scrape_iterable = 1208%nat
  /\ hd_error back_scrape_iterable = Some window_start
  /\ StronglySorted Z.lt back_scrape_iterable
  /\ Forall (fun d => window_start <= d <= window_end) back_scrape_iterable
  /\ window_end < last back_scrape_iterable window_start + 7.
Proof.
  set (n := Z.to_nat ((window_end - window_start) / 7 + 1)).
  assert (Hn : occurrences window_start window_end = n) by reflexivity.
  assert (E : back_scrape_iterable = weekly window_start n).
  { unfold back_scrape_iterable. fold window_start window_end.
    now rewrite rrule_weekly_weekly, Hn. }
  split; [exact E|]. rewrite E.
  split; [apply weekly_length|].
  split; [vm_compute; reflexivity|].
  split; [vm_compute; reflexivity|].
  split; [apply weekly_sorted|].
  split; [rewrite <- Hn; apply weekly_bounded|].
  vm_compute. reflexivity.
Qed.

End Weekly.

(** ** The back-scrape driver *)

Section BackScrape.
Local Open Scope Z_scope.

Variable remote : nat -> date * date -> outcome (option node).

(** Every call of the driver submits one search, for the seven days that end
    at its date, whatever the status is. *)
Lemma _download_backwards_fetches d s :
  fetched (fst (_download_backwards remote d s))
  = fetched s ++ [(d - 7, d)].
Proof.
  unfold _download_backwards, _download. simpl.
  destruct (remote _ _) as [[h|]|]; reflexivity.
Qed.

(** C9, amended: a driver call that gets a document records status 200
    after its one search, and with a status recorded the download step of
    [parse] submits no search and changes nothing. *)
Theorem recorded_status_stops_parse_download d s s1 :
  _download_backwards remote d s = (s1, Returned tt) ->
  html s1 <> None ->
  status s1 = Some 200
  /\ fetched s1 = fetched s ++ [(d - 7, d)]
  /\ parse_download_step remote s1 = (s1, Returned tt).
Proof.
  intros H Hdoc.
  pose proof (_download_backwards_fetches d s) as Hf. rewrite H in Hf.
  unfold _download_backwards, _download in H. simpl in H.
  destruct (remote _ _) as [[h|]|]; try discriminate.
  - injection H as <-. simpl in *. repeat split; auto.
  - injection H as <-. simpl in Hdoc. congruence.
Qed.

End BackScrape.

Lemma recorded_status_stops_parse_download_witness :
  status after_first_call = Some 200%Z
  /\ fetched after_first_call
     = fetched fresh_site ++ [((the_date 2012 1 9 - 7)%Z, the_date 2012 1 9)]
  /\ parse_download_step always_found after_first_call
     = (after_first_call, Returned tt).
Proof.
  apply (recorded_status_stops_parse_download
           always_found (the_date 2012 1 9) fresh_site after_first_call).
  - reflexivity.
  - vm_compute. discriminate.
Defined.

(** C9 as stated fails: the driver, called again for a date whose status is
    already 200, submits the same search a second time. *)
Lemma second_driver_call_fetches_again :
  status after_first_call = Some 200%Z
  /\ List.length (fetched after_first_call) = 1
  /\ fetched after_second_call
     = fetched after_first_call
       ++ [((the_date 2012 1 9 - 7)%Z, the_date 2012 1 9)]
  /\ List.length (fetched after_second_call) = 2
  /\ fetched after_second_call <> fetched after_first_call.
Proof.
  vm_compute. repeat split; discriminate.
Qed.

(** ** Substring tests and replacement *)

Section Substrings.

Lemma startswith_spec p :
  forall s, startswith p s = true <-> exists post, s = p ++ post.
Proof.
  induction p as [|a p IH]; intros s; simpl.
  - split; eauto.
  - destruct s as [|b s].
    + split; [discriminate|]. intros [post H]. discriminate.
    + rewrite andb_true_iff, Ascii.eqb_eq, IH. split.
      * intros [-> [post ->]]. eauto.
      * intros [post H]. injection H as -> ->. eauto.
Qed.

Lemma contains_spec needle :
  forall hay, contains needle hay = true <-> occurs needle hay.
Proof.
  unfold occurs.
  induction hay as [|c hay IH]; simpl; rewrite orb_true_iff, startswith_spec.
  - split.
    + intros [[post H]|H]; [|discriminate]. exists [], post. exact H.
    + intros ([|x pre] & post & H); [eauto|discriminate].
  - rewrite IH. split.
    + intros [[post H]|(pre & post & ->)].
      * exists [], post. exact H.
      * exists (c :: pre), post. reflexivity.
    + intros ([|x pre] & post & H).
      * left. eauto.
      * injection H as -> ->. right. eauto.
Qed.

Lemma contains_false needle hay :
  contains needle hay = false <-> ~ occurs needle hay.
Proof.
  rewrite <- contains_spec. destruct (contains needle hay); split; congruence.
Qed.

Lemma replace_from_skip old new a :
  forall rest,
    replace_from old new (List.length a) (a ++ rest)
    = replace_from old new 0 rest.
Proof.
  induction a as [|x a IH]; intros rest; simpl.
  - destruct rest; reflexivity.
  - apply IH.
Qed.

Lemma replace_occurrence x old new rest :
  replace (x :: old) new ((x :: old) ++ rest)
  = new ++ replace (x :: old) new rest.
Proof.
  unfold replace. cbn [app replace_from].
  replace (startswith (x :: old) (x :: old ++ rest)) with true.
  - replace (List.length (x :: old) - 1) with (List.length old)
      by (simpl; lia).
    now rewrite replace_from_skip.
  - symmetry. apply (startswith_spec (x :: old)). now exists rest.
Qed.

Lemma replace_absent old new :
  forall s, ~ occurs old s -> replace old new s = s.
Proof.
  unfold replace.
  induction s as [|c s IH]; intros H; simpl; [reflexivity|].
  destruct (startswith old (c :: s)) eqn:E.
  - exfalso. apply H. apply startswith_spec in E. destruct E as [post E].
    exists [], post. exact E.
  - f_equal. apply IH. intros (pre & post & ->). apply H.
    exists (c :: pre), post. reflexivity.
Qed.

(** The first occurrence of a character splits a string in one way only. *)
Lemma first_occurrence_unique (h : ascii) :
  forall l1 l2 r1 r2,
    ~ In h l1 -> ~ In h l2 -> l1 ++ h :: r1 = l2 ++ h :: r2 -> l1 = l2.
Proof.
  induction l1 as [|a l1 IH]; intros [|b l2] r1 r2 H1 H2 E; simpl in *.
  - reflexivity.
  - injection E as -> _. tauto.
  - injection E as -> _. tauto.
  - injection E as -> E. f_equal. apply (IH l2 r1 r2); tauto.
Qed.

(** An occurrence that ends in a character found nowhere before it is the
    first one, and the text before it is kept. *)
Lemma replace_after_prefix (h : ascii) body new :
  ~ In h body ->
  forall pre rest,
    ~ In h pre ->
    replace (body ++ [h]) new (pre ++ (body ++ [h]) ++ rest)
    = pre ++ new ++ replace (body ++ [h]) new rest.
Proof.
  intros Hbody.
  assert (Hne : exists x old, body ++ [h] = x :: old).
  { destruct body; simpl; eauto. }
  destruct Hne as (x & old & Hne).
  induction pre as [|c pre IH]; intros rest Hpre.
  - simpl. rewrite Hne. apply replace_occurrence.
  - unfold replace in *. cbn [app replace_from].
    destruct (startswith (body ++ [h]) (c :: pre ++ (body ++ [h]) ++ rest))
      eqn:E.
    + exfalso. apply startswith_spec in E. destruct E as [post E].
      rewrite <- !app_assoc in E. simpl in E.
      change (c :: pre ++ body ++ h :: rest)
        with ((c :: pre) ++ body ++ h :: rest) in E.
      rewrite app_assoc in E.
      apply first_occurrence_unique in E; auto.
      * apply (f_equal (@List.length ascii)) in E.
        rewrite length_app in E. simpl in E. lia.
      * intros Hin. apply in_app_or in Hin. tauto.
    + f_equal. apply IH. simpl in Hpre. tauto.
Qed.

End Substrings.

(** ** Precedential statuses and download URLs *)

Section RowFields.



(** C6: the URLs are the hrefs in their order, one for one; an href with
    "?ID" in it is kept, any other has "OpinionSearch.aspx#" replaced by
    "OpinionViewer.aspx?ID=", so that what follows the hash mark follows
    the "?ID=" unchanged. *)
Theorem download_urls_rewritten html :
  List.length (_get_download_urls html)
  = List.length (xpath_href false html)
  /\ forall i href,
      nth_error (xpath_href false html) i = Some href ->
      exists url,
        nth_error (_get_download_urls html) i = Some url
        /\ (occurs "?ID" href -> url = href)
        /\ (~ occurs "?ID" href ->
            url = replace "OpinionSearch.aspx#" "OpinionViewer.aspx?ID=" href)
        /\ (~ occurs "?ID" href -> ~ occurs "OpinionSearch.aspx#" href ->
            url = href)
        /\ (forall pre id,
               href = pre ++ "OpinionSearch.aspx#" ++ id ->
               ~ occurs "?ID" href -> ~ In "#"%char pre ->
               ~ occurs "OpinionSearch.aspx#" id ->
               url = pre ++ "OpinionViewer.aspx?ID=" ++ id).
Proof.
  unfold _get_download_urls. split; [apply length_map|].
  intros i href H. exists (rewrite_href href).
  split; [rewrite nth_error_map, H; reflexivity|].
  unfold rewrite_href. repeat split.
  - intros Hid. apply contains_spec in Hid. now rewrite Hid.
  - intros Hid. apply contains_false in Hid. now rewrite Hid.
  - intros Hid Hno. apply contains_false in Hid. rewrite Hid.
    now apply replace_absent.
  - intros pre id -> Hid Hpre Hidno. apply contains_false in Hid.
    rewrite Hid.
    change (list_ascii_of_string "OpinionSearch.aspx#")
      with ("OpinionSearch.aspx" ++ ["#"%char]).
    rewrite replace_after_prefix; auto.
    + now rewrite replace_absent.
    + simpl. intros H0. repeat (destruct H0 as [H0|H0]; [discriminate|]).
      exact H0.
Qed.

End RowFields.

(** ** The four getters run over the same rows *)

Section Alignment.

Lemma str_eq_eq a : forall b, str_eq a b = true <-> a = b.
Proof.
  induction a as [|x a IH]; intros [|y b]; simpl;
    try (split; congruence).
  rewrite andb_true_iff, Ascii.eqb_eq, IH. split.
  - intros [-> ->]. reflexivity.
  - intros H. injection H as -> ->. auto.
Qed.

Lemma td_is_no_row n : is_td n = true -> is_result_row n = false.
Proof.
  destruct n as [s|tag attrib cs]; [reflexivity|].
  unfold is_td. simpl. intros H. apply str_eq_eq in H. subst tag.
  reflexivity.
Qed.

Lemma flat_map_nil {A B} (f : A -> list B) l :
  Forall (fun x => f x = []) l -> flat_map f l = [].
Proof. induction 1 as [|x l Hx _ IH]; simpl; [|rewrite Hx, IH]; auto. Qed.

Lemma plain_element tag attrib cs :
  plain (Element tag attrib cs) = true ->
  is_td (Element tag attrib cs) = false
  /\ is_result_row (Element tag attrib cs) = false
  /\ forallb plain cs = true.
Proof.
  change (plain (Element tag attrib cs))
    with (negb (is_td (Element tag attrib cs))
          && negb (is_result_row (Element tag attrib cs))
          && forallb plain cs).
  rewrite !andb_true_iff, !negb_true_iff. tauto.
Qed.

Lemma xpath_rows_element tag attrib cs :
  xpath_rows (Element tag attrib cs)
  = (if is_result_row (Element tag attrib cs)
     then [Element tag attrib cs] else [])
    ++ flat_map xpath_rows cs.
Proof. reflexivity. Qed.

(** Nothing is selected below a plain node. *)
Lemma plain_no_rows n : plain n = true -> xpath_rows n = [].
Proof.
  induction n as [s|tag attrib cs IH] using node_induction; intros H.
  - reflexivity.
  - apply plain_element in H. destruct H as (_ & Hrow & Hcs).
    rewrite xpath_rows_element, Hrow. simpl. apply flat_map_nil.
    rewrite forallb_forall in Hcs. rewrite Forall_forall in *.
    intros c Hc. apply IH; auto.
Qed.

Lemma td_children_plain i b below cs :
  forall seen,
    Forall (fun c => plain c = true /\ below c = []) cs ->
    td_children i b below cs seen = [].
Proof.
  induction cs as [|c cs IH]; intros seen H; simpl; [reflexivity|].
  inversion H as [|? ? [Hp Hb] Hcs]; subst.
  rewrite Hb, IH by assumption.
  assert (Htd : is_td c = false).
  { destruct c as [s|tag attrib cs']; [reflexivity|].
    now apply plain_element in Hp. }
  rewrite Htd, andb_false_r. reflexivity.
Qed.

Lemma plain_no_td i n : forall b, plain n = true -> xpath_td i b n = [].
Proof.
  induction n as [s|tag attrib cs IH] using node_induction; intros b H.
  - reflexivity.
  - apply plain_element in H. destruct H as (_ & _ & Hcs).
    simpl. apply td_children_plain.
    rewrite forallb_forall in Hcs. rewrite Forall_forall in *.
    intros c Hc. split; auto.
Qed.

Lemma cell_ok_no_td i c : cell_ok c = true -> xpath_td i true c = [].
Proof.
  unfold cell_ok. destruct (is_td c) eqn:E; [|apply plain_no_td].
  destruct c as [s|tag attrib cs]; [reflexivity|]. simpl. intros H.
  apply td_children_plain.
  rewrite forallb_forall in H. apply Forall_forall.
  intros c Hc. split; auto. apply plain_no_td; auto.
Qed.

Lemma cell_ok_no_rows c : cell_ok c = true -> xpath_rows c = [].
Proof.
  unfold cell_ok. destruct (is_td c) eqn:E; [|apply plain_no_rows].
  destruct c as [s|tag attrib cs]; [reflexivity|]. intros H.
  rewrite xpath_rows_element, (td_is_no_row _ E). simpl. apply flat_map_nil.
  simpl in H. rewrite forallb_forall in H. apply Forall_forall.
  intros c Hc. apply plain_no_rows; auto.
Qed.

(** Past the [i]-th column nothing more is picked. *)
Lemma td_children_past i cs :
  forallb cell_ok cs = true ->
  forall seen, i <= seen -> td_children i true (xpath_td i true) cs seen = [].
Proof.
  intros Hok. induction cs as [|c cs IH]; intros seen Hle; [reflexivity|].
  simpl in Hok. apply andb_true_iff in Hok. destruct Hok as [Hc Hcs].
  cbn [td_children]. rewrite (cell_ok_no_td i c Hc). simpl.
  destruct (is_td c).
  - destruct (Nat.eqb_spec (S seen) i); [lia|]. simpl. apply IH; auto.
  - simpl. apply IH; auto.
Qed.

(** Directly below a row, the query picks the [i]-th column. *)
Lemma td_children_of_row i cs :
  forallb cell_ok cs = true ->
  forall seen,
    seen < i ->
    td_children i true (xpath_td i true) cs seen
    = match nth_error (filter is_td cs) (i - seen - 1) with
      | Some c => [c]
      | None => []
      end.
Proof.
  intros Hok. induction cs as [|c cs IH]; intros seen Hlt.
  - simpl. now destruct (i - seen - 1).
  - simpl in Hok. apply andb_true_iff in Hok. destruct Hok as [Hc Hcs].
    cbn [td_children filter]. rewrite (cell_ok_no_td i c Hc). simpl.
    destruct (is_td c) eqn:E.
    + destruct (Nat.eqb_spec (S seen) i) as [<-|Hne].
      * rewrite td_children_past by auto.
        replace (S seen - seen - 1) with 0 by lia. reflexivity.
      * rewrite IH by (auto; lia).
        replace (i - seen - 1) with (S (i - S seen - 1)) by lia.
        reflexivity.
    + simpl. apply IH; auto.
Qed.

Lemma xpath_td_of_row strptime i r :
  is_result_row r = true ->
  well_formed_row strptime r ->
  1 <= i <= 3 ->
  xpath_td i false r = [cell i r].
Proof.
  intros Hrow (Hlen & Hok & _) Hi.
  destruct r as [s|tag attrib cs]; [discriminate|].
  cbn [xpath_td]. rewrite Hrow. cbn [orb].
  rewrite td_children_of_row by (auto; lia).
  unfold cell, row_cells in *. cbn [children_of] in *.
  rewrite Nat.sub_0_r.
  destruct (nth_error (filter is_td cs) (i - 1)) eqn:E.
  - now rewrite (nth_error_nth _ _ _ E).
  - apply nth_error_None in E. lia.
Qed.

Lemma Forall_flat_map {A B} (P : B -> Prop) (f : A -> list B) l :
  Forall P (flat_map f l) -> Forall (fun x => Forall P (f x)) l.
Proof.
  induction l as [|x l IH]; simpl; intros H; constructor.
  - apply Forall_app in H. tauto.
  - apply IH. apply Forall_app in H. tauto.
Qed.

Lemma flat_map_map_eq {A B C} (f : A -> list B) (g : A -> list C)
      (h : C -> B) l :
  Forall (fun x => f x = map h (g x)) l ->
  flat_map f l = map h (flat_map g l).
Proof.
  induction 1 as [|x l Hx _ IH]; simpl; [reflexivity|].
  now rewrite map_app, Hx, IH.
Qed.

Lemma td_children_outside i below cs :
  forall seen,
    td_children i false below cs seen = flat_map below cs.
Proof.
  induction cs as [|c cs IH]; intros seen; simpl; [reflexivity|].
  now rewrite IH.
Qed.

(** The columns come one per row, in the order of the rows. *)
Lemma xpath_td_by_rows strptime i n :
  1 <= i <= 3 ->
  Forall (well_formed_row strptime) (xpath_rows n) ->
  xpath_td i false n = map (cell i) (xpath_rows n).
Proof.
  intros Hi.
  induction n as [s|tag attrib cs IH] using node_induction; intros Hwf.
  - reflexivity.
  - rewrite xpath_rows_element in *.
    destruct (is_result_row (Element tag attrib cs)) eqn:Hrow.
    + inversion Hwf as [|? ? Hr _]; subst.
      rewrite (xpath_td_of_row strptime) by auto.
      destruct Hr as (_ & Hok & _). cbn [children_of] in Hok.
      rewrite (flat_map_nil xpath_rows cs); [reflexivity|].
      rewrite forallb_forall in Hok. apply Forall_forall.
      intros c Hc. apply cell_ok_no_rows; auto.
    + cbn [xpath_td]. rewrite Hrow. cbn [orb app] in *.
      rewrite td_children_outside. apply flat_map_map_eq.
      apply Forall_flat_map in Hwf.
      rewrite Forall_forall in *. intros c Hc. apply IH; auto.
Qed.

Lemma flat_map_flat_map {A B C} (f : B -> list C) (g : A -> list B) l :
  flat_map f (flat_map g l) = flat_map (fun x => flat_map f (g x)) l.
Proof.
  induction l as [|x l IH]; simpl; [reflexivity|].
  now rewrite flat_map_app, IH.
Qed.

Lemma flat_map_eq {A B} (f g : A -> list B) l :
  Forall (fun x => f x = g x) l -> flat_map f l = flat_map g l.
Proof. induction 1 as [|x l Hx _ IH]; simpl; [|rewrite Hx, IH]; auto. Qed.

(** Inside a row every href is selected. *)
Lemma xpath_href_inside n :
  xpath_href true n = flat_map href_of (n :: descendants n).
Proof.
  induction n as [s|tag attrib cs IH] using node_induction.
  - reflexivity.
  - cbn [xpath_href descendants flat_map orb].
    f_equal. rewrite flat_map_flat_map. apply flat_map_eq.
    rewrite Forall_forall in *. intros c Hc. now rewrite IH.
Qed.

Lemma xpath_href_of_row r :
  is_result_row r = true -> xpath_href false r = row_hrefs r.
Proof.
  intros Hrow. unfold row_hrefs. rewrite <- xpath_href_inside.
  destruct r as [s|tag attrib cs]; [discriminate|].
  cbn [xpath_href]. now rewrite Hrow.
Qed.

(** The hrefs come one per row, in the order of the rows. *)
Lemma xpath_href_by_rows strptime n :
  Forall (well_formed_row strptime) (xpath_rows n) ->
  xpath_href false n = map row_href (xpath_rows n).
Proof.
  induction n as [s|tag attrib cs IH] using node_induction; intros Hwf.
  - reflexivity.
  - rewrite xpath_rows_element in *.
    destruct (is_result_row (Element tag attrib cs)) eqn:Hrow.
    + inversion Hwf as [|? ? Hr _]; subst.
      rewrite xpath_href_of_row by assumption.
      destruct Hr as (_ & Hok & Hone & _). cbn [children_of] in Hok.
      rewrite (flat_map_nil xpath_rows cs).
      * cbn [app map]. unfold row_href.
        destruct (row_hrefs (Element tag attrib cs)) as [|h [|h' hs]];
          try discriminate. reflexivity.
      * rewrite forallb_forall in Hok. apply Forall_forall.
        intros c Hc. apply cell_ok_no_rows; auto.
    + cbn [xpath_href]. rewrite Hrow. cbn [orb app] in *.
      apply flat_map_map_eq. apply Forall_flat_map in Hwf.
      rewrite Forall_forall in *. intros c Hc. apply IH; auto.
Qed.

Lemma parse_dates_all strptime tds :
  Forall (fun td => strptime (strip (text_content td)) <> None) tds ->
  exists dates,
    parse_dates strptime tds = Some dates
    /\ map Some dates
       = map (fun td => strptime (strip (text_content td))) tds.
Proof.
  induction 1 as [|td tds Htd _ (dates & Hp & Hm)]; simpl.
  - exists []. auto.
  - destruct (strptime (strip (text_content td))) as [d|]; [|congruence].
    rewrite Hp. exists (d :: dates). simpl. now rewrite Hm.
Qed.

(** C7: on a document whose result rows are all well formed, each getter
    returns one entry per row, in the order of the rows: entry [i] of the
    names, statuses, dates and URLs is computed from the first, second and
    third column and from the anchor of row [i].  Well formed means more
    than three columns and one anchor: no cell and no result row lies
    below the children of the row, and the text of the third column parses
    as a date. *)
Theorem getters_aligned_with_rows strptime html :
  Forall (well_formed_row strptime) (xpath_rows html) ->
  let rows := xpath_rows html in
  _get_case_names html
  = map (fun r => strip (text_content (cell 1 r)) ++ " v. Commissioner") rows
  /\ _get_precedential_statuses html
     = map (fun r => classify (lower (strip (text_content (cell 2 r))))) rows
  /\ (exists dates,
         _get_case_dates strptime html = Some dates
         /\ map Some dates
            = map (fun r => strptime (strip (text_content (cell 3 r)))) rows
         /\ List.length dates = List.length rows)
  /\ _get_download_urls html = map (fun r => rewrite_href (row_href r)) rows
  /\ List.length (_get_case_names html) = List.length rows
  /\ List.length (_get_precedential_statuses html) = List.length rows
  /\ List.length (_get_download_urls html) = List.length rows.
Proof.
  intros Hwf rows.
  unfold _get_case_names, _get_precedential_statuses, _get_case_dates,
    _get_download_urls.
  rewrite !(xpath_td_by_rows strptime) by (auto; lia).
  rewrite (xpath_href_by_rows strptime) by auto.
  fold rows. rewrite !map_map, !length_map.
  repeat split; auto.
  destruct (parse_dates_all strptime (map (cell 3) rows))
    as (dates & Hp & Hm).
  - apply Forall_forall. intros td Htd.
    apply in_map_iff in Htd. destruct Htd as (r & <- & Hr).
    unfold rows in Hr. rewrite Forall_forall in Hwf.
    now destruct (Hwf r Hr) as (_ & _ & _ & Hd).
  - exists dates. rewrite map_map in Hm. repeat split; auto.
    apply (f_equal (@List.length _)) in Hm.
    now rewrite !length_map in Hm.
Qed.

End Alignment.

(** ** The getters on a page with two rows *)


Lemma download_urls_rewritten_witness :
  exists url,
    nth_error (_get_download_urls sample_page) 1 = Some url
    /\ url = "https://www.ustaxcourt.gov/UstcInOp/OpinionViewer.aspx?ID=11813".
Proof.
  destruct (proj2 (download_urls_rewritten sample_page) 1
              "https://www.ustaxcourt.gov/UstcInOp/OpinionSearch.aspx#11813"
              eq_refl)
    as (url & Hurl & _ & _ & _ & Hhash).
  exists url. split; [exact Hurl|].
  apply (Hhash "https://www.ustaxcourt.gov/UstcInOp/" "11813").
  - reflexivity.
  - apply contains_false. vm_compute. reflexivity.
  - simpl. intros H. repeat (destruct H as [H|H]; [discriminate|]). exact H.
  - apply contains_false. vm_compute. reflexivity.
Defined.

Lemma getters_aligned_with_rows_witness :
  List.length (xpath_rows sample_page) = 2
  /\ _get_case_names sample_page
     = [ "Estate of Smith v. Commissioner" : str;
         "Jones v. Commissioner" : str ]
  /\ _get_precedential_statuses sample_page
     = [ "Published" : str; "Published" : str ]
  /\ _get_case_dates strptime_mdY sample_page
     = Some [the_date 2012 11 5; the_date 2012 11 6]
  /\ List.length (_get_download_urls sample_page) = 2.
Proof.
  assert (Hwf : Forall (well_formed_row strptime_mdY)
                       (xpath_rows sample_page)).
  { repeat constructor; vm_compute; discriminate. }
  destruct (getters_aligned_with_rows strptime_mdY sample_page Hwf)
    as (Hn & Hs & (dates & Hd & Hm & _) & _ & _ & _ & Hu).
  split; [reflexivity|]. split; [rewrite Hn; reflexivity|].
  split; [rewrite Hs; reflexivity|]. split; [|rewrite Hu; reflexivity].
  rewrite Hd. f_equal.
  destruct dates as [|a [|b [|c ds]]]; try discriminate.
  vm_compute in Hm. now injection Hm as -> ->.
Defined.

(** C7 as stated fails: a row with the marker, three columns and one anchor
    that holds a table in its first column gives two names for one row,
    because the query for the first column also selects the first cell of
    the inner table; and a row whose third column is no date makes the
    dates getter fail. *)
Lemma nested_table_breaks_alignment :
  List.length (xpath_rows nested_page) = 1
  /\ Forall (fun r => is_result_row r = true
                      /\ List.length (row_cells r) = 3
                      /\ List.length (row_hrefs r) = 1)
            (xpath_rows nested_page)
  /\ _get_case_names nested_page
     = [ "Smith(order) v. Commissioner" : str;
         "(order) v. Commissioner" : str ]
  /\ List.length (_get_case_names nested_page)
     <> List.length (xpath_rows nested_page)
  /\ List.length (_get_precedential_statuses nested_page) = 1
  /\ _get_case_dates strptime_mdY nested_page = Some [the_date 2012 11 5]
  /\ List.length (_get_download_urls nested_page) = 1
  /\ List.length (xpath_rows misdated_page) = 2
  /\ Forall (fun r => is_result_row r = true
                      /\ List.length (row_cells r) = 3
                      /\ List.length (row_hrefs r) = 1)
            (xpath_rows misdated_page)
  /\ _get_case_dates strptime_mdY misdated_page = None.
Proof.
  repeat split; try (vm_compute; reflexivity);
    try (repeat constructor; vm_compute; reflexivity).
  vm_compute. discriminate.
Qed.

(** ** The matcher on a text that is given piece by piece *)

Section MatcherForward.

Lemma rep_greedy_max p w :
  forall lo hi k prev rest res,
    Forall (fun x => p x = true) w ->
    lo <= List.length w -> within hi (List.length w) ->
    stops p hi (List.length w) rest ->
    k (last_of prev w) rest = Some res ->
    rep_greedy p lo hi k prev (w ++ rest) = Some res.
Proof.
  induction w as [|x w IH]; intros lo hi k prev rest res Hall Hlo Hhi Hst Hk.
  - simpl in *. assert (lo = 0) by lia. subst lo.
    destruct rest as [|y rest]; simpl; [exact Hk|].
    destruct Hst as [->|Hy]; simpl in *.
    + now rewrite andb_false_r.
    + now rewrite Hy.
  - inversion Hall as [|? ? Hx Hw]; subst. simpl. rewrite Hx.
    assert (Hopen : hi_open hi = true).
    { destruct hi as [[|h]|]; simpl in *; auto; lia. }
    rewrite Hopen. simpl.
    rewrite (IH (pred lo) (option_map pred hi) k (Some x) rest res); auto.
    + simpl in Hlo. lia.
    + destruct hi as [h|]; simpl in *; auto. lia.
    + destruct Hst as [->|Hy]; [left|right]; auto.
Qed.

Lemma run_rep a lo hi (k : cont) prev w rest c res :
  all_ok a w ->
  lo <= List.length w -> within hi (List.length w) ->
  stops (atom_ok a) hi (List.length w) rest ->
  k (last_of prev w) rest c = Some res ->
  run (Rep a lo hi) k prev (w ++ rest) c = Some res.
Proof. intros. simpl. now apply rep_greedy_max. Qed.

Lemma run_group_rep n a lo hi (k : cont) prev w rest c res :
  all_ok a w ->
  lo <= List.length w -> within hi (List.length w) ->
  stops (atom_ok a) hi (List.length w) rest ->
  k (last_of prev w) rest ((n, w) :: c) = Some res ->
  run (Group n (Rep a lo hi)) k prev (w ++ rest) c = Some res.
Proof.
  intros. cbn [run]. apply rep_greedy_max; auto.
  now rewrite firstn_consumed.
Qed.

Lemma run_atom a (k : cont) prev x rest c res :
  atom_ok a x = true ->
  k (Some x) rest c = Some res ->
  run (Atom a) k prev (x :: rest) c = Some res.
Proof. intros Hx Hk. simpl. now rewrite Hx. Qed.


Lemma ci_eq_cons_inv l a s :
  ci_eq l (a :: s) ->
  exists x l', l = x :: l' /\ lower_char x = lower_char a /\ ci_eq l' s.
Proof.
  unfold ci_eq. destruct l as [|x l]; simpl; [discriminate|].
  intros H. injection H as Hx Hl. eauto.
Qed.

Lemma ci_eq_nil_inv l : ci_eq l [] -> l = [].
Proof. unfold ci_eq. destruct l; simpl; [auto|discriminate]. Qed.

Lemma ci_eq_app_inv l a b :
  ci_eq l (a ++ b) ->
  exists la lb, l = la ++ lb /\ ci_eq la a /\ ci_eq lb b.
Proof.
  revert l. induction a as [|x a IH]; intros l H.
  - exists [], l. repeat split; auto.
  - simpl in H. apply ci_eq_cons_inv in H.
    destruct H as (y & l' & -> & Hy & H). apply IH in H.
    destruct H as (la & lb & -> & Ha & Hb).
    exists (y :: la), lb. repeat split; auto.
    unfold ci_eq in *. simpl. now rewrite Hy, Ha.
Qed.

Lemma run_lit s :
  forall (k : cont) prev l rest c,
    ci_eq l s ->
    run (lit s) k prev (l ++ rest) c = k (last_of prev l) rest c.
Proof.
  induction s as [|a s IH]; intros k prev l rest c H.
  - apply ci_eq_nil_inv in H. subst l. reflexivity.
  - apply ci_eq_cons_inv in H. destruct H as (x & l' & -> & Hx & H).
    destruct s as [|b s].
    + apply ci_eq_nil_inv in H. subst l'. simpl.
      rewrite Hx, Ascii.eqb_refl. reflexivity.
    + change (lit (a :: b :: s))
        with (Seq (Atom (Lit a)) (lit (b :: s))).
      cbn [run app]. cbn [atom_ok]. rewrite Hx, Ascii.eqb_refl.
      now rewrite IH.
Qed.

Lemma run_lit_fail a s (k : cont) prev x rest c :
  atom_ok (Lit a) x = false ->
  run (lit (a :: s)) k prev (x :: rest) c = None.
Proof.
  intros Hx. destruct s as [|b s].
  - simpl in *. now rewrite Hx.
  - change (lit (a :: b :: s)) with (Seq (Atom (Lit a)) (lit (b :: s))).
    cbn [run]. now rewrite Hx.
Qed.

Lemma head_fails_app (q p : ascii -> bool) w rest :
  (forall y, q y = true -> p y = false) ->
  Forall (fun x => q x = true) w -> 1 <= List.length w ->
  head_fails p (w ++ rest).
Proof.
  intros Hqp Hall Hlen. destruct w as [|x w]; simpl in *; [lia|].
  inversion Hall; subst. auto.
Qed.


Lemma firstn_whole (w : str) :
  firstn (List.length w - List.length (@nil ascii)) w = w.
Proof. simpl. rewrite Nat.sub_0_r. apply firstn_all. Qed.

End MatcherForward.

(** ** Citations with wider whitespace *)

Ltac char_fact :=
  let x := fresh "x" in
  intros x; each_char x; vm_compute; intros; congruence.

Ltac seq_step :=
  lazymatch goal with
  | |- run (Seq ?r1 ?r2) ?k ?p ?t ?c = ?m =>
      change (run r1 (run r2 k) p t c = m)
  end.

Ltac group_step :=
  lazymatch goal with
  | |- run (Group ?n ?r) ?k ?p ?t ?c = ?m =>
      change (run r
                  (fun p' r' c' =>
                     k p' r'
                       ((n, firstn (List.length t - List.length r') t) :: c'))
                  p t c = m)
  end.

Ltac alt_step :=
  lazymatch goal with
  | |- run (Alt ?a ?b) ?k ?p ?t ?c = ?m =>
      change (orelse (run a k p t c) (run b k p t c) = m)
  end.

Ltac rep_step lem :=
  apply lem; [assumption | simpl; lia | simpl; auto; lia | | ].

Section CharacterClasses.

Lemma space_no_digit :
  forall y, atom_ok Space y = true -> atom_ok (Range "0" "9") y = false.
Proof. char_fact. Qed.

Lemma space_no_decimal :
  forall y, atom_ok Space y = true -> atom_ok Decimal y = false.
Proof. char_fact. Qed.


Lemma decimal_no_space :
  forall y, atom_ok Decimal y = true -> atom_ok Space y = false.
Proof. char_fact. Qed.

Lemma space_no_S :
  forall y, atom_ok Space y = true -> atom_ok (Lit "S") y = false.
Proof. char_fact. Qed.


Lemma u_no_space :
  forall y, lower_char y = lower_char "U" -> atom_ok Space y = false.
Proof. char_fact. Qed.

Lemma digit_no_T :
  forall y, atom_ok (Range "0" "9") y = true -> atom_ok (Lit "T") y = false.
Proof. char_fact. Qed.


End CharacterClasses.

Section PrimaryForward.

Variables v w1 l w2 p : str.
Hypothesis Hv : all_ok (Range "0" "9") v.
Hypothesis Hvlen : 1 <= List.length v <= 4.
Hypothesis Hw1 : all_ok Space w1.
Hypothesis Hw1len : 1 <= List.length w1.
Hypothesis Hl : ci_eq l "UNITED STATES TAX COURT REPORT"
                \/ ci_eq l "UNITED STATES TAX COURT REPORTS".
Hypothesis Hw2 : all_ok Space w2.
Hypothesis Hw2len : 1 <= List.length w2.
Hypothesis Hp : all_ok Decimal p.
Hypothesis Hplen : 1 <= List.length p <= 4.

Lemma primary_reads_reporter (k : cont) prev rest c res :
  head_fails (atom_ok (Lit "S")) rest ->
  k (last_of prev l) rest c = Some res ->
  run (Seq (lit "UNITED STATES TAX COURT REPORT") (opt (Lit "S")))
      k prev (l ++ rest) c = Some res.
Proof.
  intros Hrest Hk. seq_step. destruct Hl as [H|H].
  - rewrite run_lit by exact H.
    apply (run_rep (Lit "S") 0 (Some 1) k (last_of prev l) [] rest);
      simpl; auto.
    + constructor.
    + now right.
  - change (list_ascii_of_string "UNITED STATES TAX COURT REPORTS")
      with ("UNITED STATES TAX COURT REPORT" ++ ["S"%char]) in H.
    apply ci_eq_app_inv in H. destruct H as (la & lb & E & Ha & Hb).
    rewrite E in *. rewrite <- app_assoc. rewrite run_lit by exact Ha.
    apply ci_eq_cons_inv in Hb. destruct Hb as (x & lb' & -> & Hx & Hb).
    apply ci_eq_nil_inv in Hb. subst lb'.
    apply (run_rep (Lit "S") 0 (Some 1) k (last_of prev la) [x] rest);
      simpl; auto.
    + constructor; [|constructor]. simpl. rewrite Hx. reflexivity.
    + now left.
    + now rewrite last_of_app in Hk.
Qed.

Lemma l_begins_with_u rest : head_fails (atom_ok Space) (l ++ rest).
Proof.
  assert (H : exists x l', l = x :: l' /\ lower_char x = lower_char "U").
  { destruct Hl as [H|H]; apply ci_eq_cons_inv in H;
      destruct H as (x & l' & -> & Hx & _); eauto. }
  destruct H as (x & l' & -> & Hx). simpl. now apply u_no_space.
Qed.


End PrimaryForward.

Section MatcherForwardMore.


Lemma orelse_right {A} (x y : option A) v :
  x = None -> y = Some v -> orelse x y = Some v.
Proof. now intros -> ->. Qed.

Lemma run_opt_skip a (k : cont) prev rest c res :
  head_fails (atom_ok a) rest ->
  k prev rest c = Some res ->
  run (opt a) k prev rest c = Some res.
Proof.
  intros Hh Hk.
  apply (run_rep a 0 (Some 1) k prev [] rest); simpl; auto.
  - constructor.
  - now right.
Qed.


End MatcherForwardMore.

Section MemoForward.

Variables w year ord : str.
Variable sep : ascii.
Hypothesis Hw : all_ok Space w.
Hypothesis Hwlen : 1 <= List.length w.
Hypothesis Hyear : all_ok (Range "0" "9") year.
Hypothesis Hyearlen : List.length year = 4.
Hypothesis Hsep : sep <> "010"%char.
Hypothesis Hord : all_ok (Range "0" "9") ord.
Hypothesis Hordlen : 1 <= List.length ord <= 3.


End MemoForward.

Section SummaryForward.

Variables w year ord : str.
Variable sep : ascii.
Hypothesis Hw : all_ok Space w.
Hypothesis Hwlen : 1 <= List.length w.
Hypothesis Hyear : all_ok (Range "0" "9") year.
Hypothesis Hyearlen : List.length year = 4.
Hypothesis Hsep : sep <> "010"%char.
Hypothesis Hord : all_ok (Range "0" "9") ord.
Hypothesis Hordlen : 1 <= List.length ord <= 3.


End SummaryForward.

Section NumberedForward.

Variables v w1 w2 p : str.
Hypothesis Hv : all_ok (Range "0" "9") v.
Hypothesis Hvlen : 1 <= List.length v <= 4.
Hypothesis Hw1 : all_ok Space w1.
Hypothesis Hw1len : 1 <= List.length w1.
Hypothesis Hw2 : all_ok Space w2.
Hypothesis Hw2len : 1 <= List.length w2.
Hypothesis Hp : all_ok Decimal p.
Hypothesis Hplen : 1 <= List.length p <= 4.


End NumberedForward.

(** ** Reading whole citations *)

(** A character is none of the given ones. *)
Ltac not_among :=
  simpl;
  let H := fresh "H" in
  intros H; repeat (destruct H as [H|H]; [discriminate H|]); exact H.

Section NoPrimaryMatch.

Lemma lower_d : forall y, lower_char y = "d"%char -> y = "d"%char \/ y = "D"%char.
Proof. intros y; each_char y; vm_compute; intros; (congruence || auto). Qed.

Lemma lower_x : forall y, lower_char y = "x"%char -> y = "x"%char \/ y = "X"%char.
Proof. intros y; each_char y; vm_compute; intros; (congruence || auto). Qed.

Lemma class_excludes (q : ascii -> bool) c w :
  q c = false -> Forall (fun x => q x = true) w -> ~ In c w.
Proof.
  intros Hc Hall Hin. rewrite Forall_forall in Hall.
  apply Hall in Hin. congruence.
Qed.

(** A text the primary pattern matches holds a "d" and an "x", in either
    case: those of "UNITED" and "TAX". *)
Lemma primary_needs_d_and_x text m :
  search tax_court_reports_regex text = Some m ->
  (In "d"%char text \/ In "D"%char text)
  /\ (In "x"%char text \/ In "X"%char text).
Proof.
  intros H. apply search_sound in H.
  destruct H as (pre & w & aft & c' & -> & Hs & _).
  apply primary_sem in Hs.
  destruct Hs as (v & w1 & l & w2 & p & -> & _ & _ & _ & _ & _ & Hl & _).
  assert (Hin : forall c, In c (lower "UNITED STATES TAX COURT REPORT") ->
                          exists y, In y l /\ lower_char y = c).
  { intros c Hc.
    assert (Hc' : In c (lower l)).
    { destruct Hl as [Hl|Hl]; unfold ci_eq in Hl; rewrite Hl; [exact Hc|].
      change (list_ascii_of_string "UNITED STATES TAX COURT REPORTS")
        with ("UNITED STATES TAX COURT REPORT" ++ ["S"%char]).
      unfold lower in *. rewrite map_app. apply in_or_app. now left. }
    unfold lower in Hc'. apply in_map_iff in Hc'.
    destruct Hc' as (y & Hy & Hyl). eauto. }
  assert (Hl_in : forall y, In y l ->
                   In y (pre ++ (v ++ w1 ++ l ++ w2 ++ "(" ++ p ++ ")")
                             ++ aft)).
  { intros y Hy. rewrite !in_app_iff. auto 10. }
  split.
  - destruct (Hin "d"%char) as (y & Hy & Hd); [vm_compute; tauto|].
    apply lower_d in Hd. destruct Hd as [-> | ->]; auto.
  - destruct (Hin "x"%char) as (y & Hy & Hx); [vm_compute; tauto|].
    apply lower_x in Hx. destruct Hx as [-> | ->]; auto.
Qed.

Lemma no_primary_match text :
  ~ ((In "d"%char text \/ In "D"%char text)
     /\ (In "x"%char text \/ In "X"%char text)) ->
  search tax_court_reports_regex text = None.
Proof.
  intros H. destruct (search tax_court_reports_regex text) eqn:E; auto.
  apply primary_needs_d_and_x in E. contradiction.
Qed.

End NoPrimaryMatch.

Section CitationTexts.

Lemma contains_skip h t a :
  forall b, ~ In h a -> contains (h :: t) (a ++ b) = contains (h :: t) b.
Proof.
  induction a as [|x a IH]; intros b Hin; [reflexivity|].
  cbn [app contains startswith].
  destruct (Ascii.eqb_spec h x) as [->|_].
  - exfalso. apply Hin. now left.
  - simpl. apply IH. intros H. apply Hin. now right.
Qed.


Variables w year ord : str.
Variable sep : ascii.
Hypothesis Hw : all_ok Space w.
Hypothesis Hyear : all_ok (Range "0" "9") year.
Hypothesis Hord : all_ok (Range "0" "9") ord.





End CitationTexts.

Section PrimaryFamily.

Variables v w1 l w2 p : str.
Hypothesis Hv : all_ok (Range "0" "9") v.
Hypothesis Hvlen : 1 <= List.length v <= 4.
Hypothesis Hw1 : all_ok Space w1.
Hypothesis Hw1len : 1 <= List.length w1.
Hypothesis Hl : ci_eq l "UNITED STATES TAX COURT REPORT"
                \/ ci_eq l "UNITED STATES TAX COURT REPORTS".
Hypothesis Hw2 : all_ok Space w2.
Hypothesis Hw2len : 1 <= List.length w2.
Hypothesis Hp : all_ok Decimal p.
Hypothesis Hplen : 1 <= List.length p <= 4.


End PrimaryFamily.

Section NumberedFamily.

Variables v w1 w2 p : str.
Hypothesis Hv : all_ok (Range "0" "9") v.
Hypothesis Hvlen : 1 <= List.length v <= 4.
Hypothesis Hw1 : all_ok Space w1.
Hypothesis Hw1len : 1 <= List.length w1.
Hypothesis Hw2 : all_ok Space w2.
Hypothesis Hw2len : 1 <= List.length w2.
Hypothesis Hp : all_ok Decimal p.
Hypothesis Hplen : 1 <= List.length p <= 4.

Lemma numbered_no_primary_match :
  search tax_court_reports_regex (v ++ w1 ++ "T.C. No." ++ w2 ++ p) = None.
Proof.
  apply no_primary_match. intros [Hd _].
  assert (Hno : forall c, atom_ok Space c = false ->
                          atom_ok (Range "0" "9") c = false ->
                          atom_ok Decimal c = false ->
                          ~ In c "T.C. No." ->
                          ~ In c (v ++ w1 ++ "T.C. No." ++ w2 ++ p)).
  { intros c Hs Hr Hdec Hc Hin. rewrite !in_app_iff in Hin.
    destruct Hin as [H|[H|[H|[H|H]]]]; revert H; auto.
    - now apply (class_excludes (atom_ok (Range "0" "9"))).
    - now apply (class_excludes (atom_ok Space)).
    - now apply (class_excludes (atom_ok Space)).
    - now apply (class_excludes (atom_ok Decimal)). }
  destruct Hd as [Hd|Hd]; revert Hd; apply Hno; try reflexivity;
    not_among.
Qed.



End NumberedFamily.

Section YearFamilies.

Variables w year ord : str.
Variable sep : ascii.
Hypothesis Hw : all_ok Space w.
Hypothesis Hwlen : 1 <= List.length w.
Hypothesis Hyear : all_ok (Range "0" "9") year.
Hypothesis Hyearlen : List.length year = 4.
Hypothesis Hsep : sep <> "010"%char.
Hypothesis Hord : all_ok (Range "0" "9") ord.
Hypothesis Hordlen : 1 <= List.length ord <= 3.





End YearFamilies.




(** ** The alternate pattern *)

Section Alternate.

(** What the alternate pattern captures: either the year and the ordinal
    that end a Memorandum/Summary citation, or the volume and the page that
    begin and end a numbered one. *)
Lemma alt_sem prev w aft c' :
  sem tax_court_alt_regex prev w aft [] c' ->
  (exists head year sep ord,
      w = head ++ year ++ [sep] ++ ord
      /\ lookup 6 c' = Some year /\ lookup 7 c' = Some ord
      /\ lookup 8 c' = None /\ lookup 10 c' = None
      /\ all_ok (Range "0" "9") year /\ List.length year = 4
      /\ all_ok (Range "0" "9") ord /\ 1 <= List.length ord <= 3)
  \/ (exists v mid p,
         w = v ++ mid ++ p
         /\ lookup 8 c' = Some v /\ lookup 10 c' = Some p
         /\ lookup 6 c' = None /\ lookup 7 c' = None
         /\ all_ok (Range "0" "9") v /\ 1 <= List.length v <= 4
         /\ all_ok Decimal p /\ 1 <= List.length p <= 4).
Proof.
  unfold tax_court_alt_regex. cbn [seq sem].
  intros (c1 & [(c2 & H & ->)|H] & ->).
  - left.
    destruct H as (l1 & ? & ? & -> & Hl1 & H).
    apply lit_sem in Hl1. destruct Hl1 as [_ ->].
    destruct H as (o1 & ? & ? & -> & Ho1 & H).
    apply opt_sem in Ho1. destruct Ho1 as [_ ->].
    destruct H as (l2 & ? & ? & -> & Hl2 & H).
    apply lit_sem in Hl2. destruct Hl2 as [_ ->].
    destruct H as (? & ? & ? & -> & (s & -> & _ & ->) & H).
    destruct H as (g3 & ? & ? & -> & (c3 & Hg3 & ->) & H).
    destruct H as (ws & ? & ? & -> & (_ & _ & _ & ->) & H).
    destruct H as (year & ? & ? & -> & (? & (Hy & Hy4 & Hy4' & ->) & ->) & H).
    destruct H as (? & ? & ? & -> & (sep & -> & _ & ->) & H).
    destruct H as (ord & ? & ? & -> & (? & (Ho & Ho1 & Ho3 & ->) & ->) & H).
    destruct H as (-> & _ & ->).
    exists (l1 ++ o1 ++ l2 ++ [s] ++ g3 ++ ws), year, sep, ord.
    simpl in Hy4', Ho3.
    assert (Hc3 : lookup 8 c3 = None /\ lookup 10 c3 = None).
    { destruct Hg3 as [(c4 & Hm & ->)|(c5 & Hs & ->)].
      - destruct Hm as (? & ? & ? & _ & Hm & Hd).
        apply lit_sem in Hm. destruct Hm as [_ ->].
        apply opt_sem in Hd. destruct Hd as [_ ->]. auto.
      - apply lit_sem in Hs. destruct Hs as [_ ->]. auto. }
    destruct Hc3 as [H8 H10].
    rewrite app_nil_r, <- !app_assoc.
    repeat split; auto; lia.
  - right.
    destruct H as (v & ? & ? & -> & (? & (Hv & Hv1 & Hv4 & ->) & ->) & H).
    destruct H as (ws1 & ? & ? & -> & (_ & _ & _ & ->) & H).
    destruct H as (g9 & ? & ? & -> & (c9 & Hg9 & ->) & H).
    destruct H as (ws2 & p & ? & -> & (_ & _ & _ & ->) & H).
    destruct H as (? & (Hp & Hp1 & Hp4 & ->) & ->).
    exists v, (ws1 ++ g9 ++ ws2), p. simpl in Hv4, Hp4.
    assert (Hc9 : c9 = (8, v) :: []).
    { destruct Hg9 as (? & ? & ? & _ & Ha & ? & ? & ? & _ & Hb & Hc).
      apply lit_sem in Ha. destruct Ha as [_ ->].
      apply opt_sem in Hb. destruct Hb as [_ ->].
      apply lit_sem in Hc. destruct Hc as [_ ->]. reflexivity. }
    subst c9. rewrite <- !app_assoc.
    repeat split; auto.
Qed.

Lemma alt_match_shape text m :
  search tax_court_alt_regex text = Some m ->
  (exists head year sep ord,
      whole m = head ++ year ++ [sep] ++ ord
      /\ group m 6 = Some year /\ group m 7 = Some ord
      /\ group m 8 = None /\ group m 10 = None
      /\ all_ok (Range "0" "9") year /\ List.length year = 4
      /\ all_ok (Range "0" "9") ord /\ 1 <= List.length ord <= 3)
  \/ (exists v mid p,
         whole m = v ++ mid ++ p
         /\ group m 8 = Some v /\ group m 10 = Some p
         /\ group m 6 = None /\ group m 7 = None
         /\ all_ok (Range "0" "9") v /\ 1 <= List.length v <= 4
         /\ all_ok Decimal p /\ 1 <= List.length p <= 4).
Proof.
  intros H. apply search_sound in H.
  destruct H as (pre & w & aft & c' & _ & Hs & ->).
  apply alt_sem in Hs. exact Hs.
Qed.

(** When only the alternate pattern matches, the fields read depend on
    whether "No." occurs in the matched text.  If it does, the reporter is
    T.C., the volume and page are groups 8 and 10 and the status is
    Published.  If not, the volume and page are groups 6 and 7, the year
    and the ordinal of a Memorandum/Summary match, the reporter is chosen
    by whether "Memo" and then "Summary" occurs, and the status is
    Unpublished; the reporter is not set when neither occurs.  The three
    tests respect letter case. *)
Theorem alternate_match_is_read_by_its_text text m :
  search tax_court_reports_regex text = None ->
  search tax_court_alt_regex text = Some m ->
  (contains "No." (whole m) = true ->
   extract_from_text text
   = cited (PyStr "T.C.") (of_group (group m 8)) (of_group (group m 10))
           "Published")
  /\ (contains "No." (whole m) = false ->
      extract_from_text text
      = memorandum_readout (whole m) (of_group (group m 6))
                           (of_group (group m 7)))
  /\ ((exists head year sep ord,
          whole m = head ++ year ++ [sep] ++ ord
          /\ group m 6 = Some year /\ group m 7 = Some ord
          /\ group m 8 = None /\ group m 10 = None
          /\ all_ok (Range "0" "9") year /\ List.length year = 4
          /\ all_ok (Range "0" "9") ord /\ 1 <= List.length ord <= 3)
      \/ (exists v mid p,
             whole m = v ++ mid ++ p
             /\ group m 8 = Some v /\ group m 10 = Some p
             /\ group m 6 = None /\ group m 7 = None
             /\ all_ok (Range "0" "9") v /\ 1 <= List.length v <= 4
             /\ all_ok Decimal p /\ 1 <= List.length p <= 4))
  /\ extract_from_text "T.C. Memo 2012-1"
     = cited (PyStr "T.C. Memo.") (PyStr "2012") (PyStr "1") "Unpublished"
  /\ extract_from_text "45 T.C. No. 3"
     = cited (PyStr "T.C.") (PyStr "45") (PyStr "3") "Published".
Proof.
  intros Hp Ha. split; [|split; [|split; [|split]]].
  - intros Hno. unfold extract_from_text, extract_with.
    rewrite Hp, Ha, Hno. reflexivity.
  - intros Hno. unfold extract_from_text, extract_with, memorandum_readout.
    rewrite Hp, Ha, Hno.
    destruct (contains "Memo" (whole m)); [reflexivity|].
    destruct (contains "Summary" (whole m)); reflexivity.
  - exact (alt_match_shape text m Ha).
  - vm_compute. reflexivity.
  - vm_compute. reflexivity.
Qed.

Lemma alternate_match_is_read_by_its_text_witness :
  extract_from_text "see T.C. Summary Opinion 2012-17, above"
  = cited (PyStr "T.C. Summary Opinion") (PyStr "2012") (PyStr "17")
          "Unpublished".
Proof.
  destruct (alternate_match_is_read_by_its_text
              "see T.C. Summary Opinion 2012-17, above"
              {| whole := "T.C. Summary Opinion 2012-17";
                 groups := [ (1, "T.C. Summary Opinion 2012-17" : str);
                             (2, "T.C. Summary Opinion 2012-17" : str);
                             (7, "17" : str); (6, "2012" : str);
                             (3, "Summary Opinion" : str);
                             (5, "Summary Opinion" : str) ] |})
    as (_ & H & _).
  - vm_compute. reflexivity.
  - vm_compute. reflexivity.
  - rewrite H; vm_compute; reflexivity.
Defined.

(** C2: in the letter case of the grammar the two examples are read as
    stated, but the pattern matches in any letter case while the matched
    text is tested for "No.", "Memo" and "Summary" in exactly this case.
    "45 t.c. no. 3" is matched as a numbered citation, with volume 45 and
    page 3 in groups 8 and 10, and is read by the Memorandum/Summary branch:
    volume and page are None, no reporter is set and the status is
    Unpublished.  "T.C. MEMO 2012-1" and "T.C. SUMMARY OPINION 2012-17" are
    read with their year and ordinal but without a reporter. *)
Theorem other_letter_case_breaks_the_readout :
  extract_from_text "T.C. Memo 2012-1"
  = cited (PyStr "T.C. Memo.") (PyStr "2012") (PyStr "1") "Unpublished"
  /\ extract_from_text "45 T.C. No. 3"
     = cited (PyStr "T.C.") (PyStr "45") (PyStr "3") "Published"
  /\ (search tax_court_reports_regex "45 t.c. no. 3" = None
      /\ (exists m,
             search tax_court_alt_regex "45 t.c. no. 3" = Some m
             /\ whole m = "45 t.c. no. 3"
             /\ group m 8 = Some (list_ascii_of_string "45")
             /\ group m 10 = Some (list_ascii_of_string "3"))
      /\ extract_from_text "45 t.c. no. 3"
         = unpublished_without_reporter PyNone PyNone
      /\ extract_from_text "45 t.c. no. 3"
         <> cited (PyStr "T.C.") (PyStr "45") (PyStr "3") "Published")
  /\ (search tax_court_reports_regex "T.C. MEMO 2012-1" = None
      /\ (exists m,
             search tax_court_alt_regex "T.C. MEMO 2012-1" = Some m
             /\ whole m = "T.C. MEMO 2012-1"
             /\ contains "No." (whole m) = false
             /\ group m 6 = Some (list_ascii_of_string "2012")
             /\ group m 7 = Some (list_ascii_of_string "1"))
      /\ extract_from_text "T.C. MEMO 2012-1"
         = unpublished_without_reporter (PyStr "2012") (PyStr "1")
      /\ extract_from_text "T.C. MEMO 2012-1"
         <> cited (PyStr "T.C. Memo.") (PyStr "2012") (PyStr "1")
                  "Unpublished")
  /\ extract_from_text "T.C. SUMMARY OPINION 2012-17"
     = unpublished_without_reporter (PyStr "2012") (PyStr "17").
Proof.
  split; [vm_compute; reflexivity|].
  split; [vm_compute; reflexivity|].
  split; [|split].
  - split; [vm_compute; reflexivity|].
    split; [eexists; vm_compute; repeat split|].
    split; [vm_compute; reflexivity|vm_compute; discriminate].
  - split; [vm_compute; reflexivity|].
    split; [eexists; vm_compute; repeat split|].
    split; [vm_compute; reflexivity|vm_compute; discriminate].
  - vm_compute. reflexivity.
Qed.

End Alternate.

(** ** The matcher finds whatever the pattern describes *)

Section MatcherComplete.

Lemma orelse_found_left {A} (x y : option A) : x <> None -> orelse x y <> None.
Proof. destruct x; simpl; congruence. Qed.

Lemma orelse_found_right {A} (x y : option A) :
  y <> None -> orelse x y <> None.
Proof. destruct x; simpl; congruence. Qed.

Lemma rep_greedy_complete p w :
  forall lo hi k prev rest,
    Forall (fun x => p x = true) w ->
    lo <= List.length w -> within hi (List.length w) ->
    k (last_of prev w) rest <> None ->
    rep_greedy p lo hi k prev (w ++ rest) <> None.
Proof.
  induction w as [|x w IH]; intros lo hi k prev rest Hall Hlo Hhi Hk.
  - simpl in *. assert (lo = 0) by lia. subst lo.
    destruct rest as [|y rest]; simpl; [exact Hk|].
    destruct (p y && hi_open hi); [|exact Hk].
    now apply orelse_found_right.
  - inversion Hall as [|? ? Hx Hw]; subst. simpl. rewrite Hx.
    assert (Hopen : hi_open hi = true).
    { destruct hi as [[|h]|]; simpl in *; auto; lia. }
    rewrite Hopen. simpl. apply orelse_found_left.
    apply IH; auto.
    + simpl in Hlo. lia.
    + destruct hi as [h|]; simpl in *; auto. lia.
Qed.

Lemma run_complete r :
  forall (k : cont) prev w aft c c',
    sem r prev w aft c c' ->
    k (last_of prev w) aft c' <> None ->
    run r k prev (w ++ aft) c <> None.
Proof.
  induction r as [|a|a lo hi| |n r IH|r1 IH1 r2 IH2|r1 IH1 r2 IH2];
    intros k prev w aft c c' Hs Hk; simpl in Hs.
  - destruct Hs as [-> ->]. exact Hk.
  - destruct Hs as (x & -> & Hx & ->). simpl. now rewrite Hx.
  - destruct Hs as (Hall & Hlo & Hhi & ->). simpl.
    now apply rep_greedy_complete.
  - destruct Hs as (-> & Hb & ->). simpl. now rewrite Hb.
  - destruct Hs as (c0 & Hs & ->). cbn [run].
    apply (IH _ prev w aft c c0 Hs). now rewrite firstn_consumed.
  - destruct Hs as (w1 & w2 & c1 & -> & Hs1 & Hs2).
    rewrite <- app_assoc. cbn [run].
    apply (IH1 _ prev w1 (w2 ++ aft) c c1 Hs1).
    apply (IH2 _ _ w2 aft c1 c' Hs2).
    now rewrite <- last_of_app.
  - cbn [run]. destruct Hs as [Hs|Hs].
    + apply orelse_found_left. now apply (IH1 _ prev w aft c c' Hs).
    + apply orelse_found_right. now apply (IH2 _ prev w aft c c' Hs).
Qed.

Lemma match_at_complete r prev w aft c' :
  sem r prev w aft [] c' -> match_at r prev (w ++ aft) <> None.
Proof.
  intros Hs. unfold match_at.
  apply (run_complete r _ prev w aft [] c' Hs). discriminate.
Qed.

Lemma search_from_complete r pre :
  forall prev rest,
    match_at r (last_of prev pre) rest <> None ->
    search_from r prev (pre ++ rest) <> None.
Proof.
  induction pre as [|x pre IH]; intros prev rest H.
  - simpl in *. destruct rest; simpl; now apply orelse_found_left.
  - simpl. apply orelse_found_right. now apply IH.
Qed.

(** [re.search] finds a match as soon as the pattern describes some part
    of the text. *)
Lemma search_complete r pre w aft c' :
  sem r (last_of None pre) w aft [] c' ->
  search r (pre ++ w ++ aft) <> None.
Proof.
  intros Hs. apply search_from_complete. now apply match_at_complete in Hs.
Qed.

End MatcherComplete.

(** ** A primary citation anywhere in the text *)

Section PrimaryAnywhere.

Lemma lit_sem_intro s :
  forall prev l aft c, ci_eq l s -> sem (lit s) prev l aft c c.
Proof.
  induction s as [|a s IH]; intros prev l aft c H.
  - apply ci_eq_nil_inv in H. subst. simpl. auto.
  - apply ci_eq_cons_inv in H. destruct H as (x & l' & -> & Hx & H).
    destruct s as [|b s].
    + apply ci_eq_nil_inv in H. subst l'. simpl. exists x.
      rewrite Hx, Ascii.eqb_refl. auto.
    + change (lit (a :: b :: s)) with (Seq (Atom (Lit a)) (lit (b :: s))).
      cbn [sem]. exists [x], l', c. repeat split.
      * exists x. simpl. rewrite Hx, Ascii.eqb_refl. auto.
      * apply IH. exact H.
Qed.

Lemma reporter_sem_intro prev l aft c :
  ci_eq l "UNITED STATES TAX COURT REPORT"
  \/ ci_eq l "UNITED STATES TAX COURT REPORTS" ->
  sem (Seq (lit "UNITED STATES TAX COURT REPORT") (opt (Lit "S")))
      prev l aft c c.
Proof.
  intros [H|H]; cbn [sem opt].
  - exists l, [], c. rewrite app_nil_r.
    repeat split; auto; try (simpl; lia); try constructor.
    now apply lit_sem_intro.
  - change (list_ascii_of_string "UNITED STATES TAX COURT REPORTS")
      with ("UNITED STATES TAX COURT REPORT" ++ ["S"%char]) in H.
    apply ci_eq_app_inv in H. destruct H as (la & lb & -> & Ha & Hb).
    apply ci_eq_cons_inv in Hb. destruct Hb as (x & lb' & -> & Hx & Hb).
    apply ci_eq_nil_inv in Hb. subst lb'.
    exists la, [x], c.
    repeat split; auto; try (simpl; lia).
    + now apply lit_sem_intro.
    + constructor; [|constructor]. simpl. now rewrite Hx.
Qed.

(** The primary pattern describes every citation in the primary form. *)
Lemma primary_sem_intro prev v w1 l w2 p aft c :
  primary_citation v w1 l w2 p ->
  sem tax_court_reports_regex prev
      (v ++ w1 ++ l ++ w2 ++ "(" ++ p ++ ")") aft c ((2, p) :: (1, v) :: c).
Proof.
  intros (Hv & Hvl & Hw1 & Hw1l & Hl & Hw2 & Hw2l & Hp & Hpl).
  unfold tax_court_reports_regex. cbn [seq].
  cbn [sem]. exists v, (w1 ++ l ++ w2 ++ "(" ++ p ++ ")"), ((1, v) :: c).
  split; [reflexivity|]. split.
  { exists c. repeat split; auto; simpl; lia. }
  exists w1, (l ++ w2 ++ "(" ++ p ++ ")"), ((1, v) :: c).
  split; [reflexivity|]. split; [repeat split; auto; exact I|].
  pose proof (reporter_sem_intro
                (last_of (last_of prev v) w1) l
                ((w2 ++ "(" ++ p ++ ")") ++ aft) ((1, v) :: c) Hl) as Hrep.
  cbn [sem] in Hrep. destruct Hrep as (la & lb & c1 & -> & Hla & Hlb).
  assert (c1 = (1, v) :: c) by (apply lit_sem in Hla; tauto). subst c1.
  exists la, (lb ++ w2 ++ "(" ++ p ++ ")"), ((1, v) :: c).
  split; [now rewrite <- app_assoc|]. split.
  { rewrite <- !app_assoc in Hla |- *. exact Hla. }
  exists lb, (w2 ++ "(" ++ p ++ ")"), ((1, v) :: c).
  split; [reflexivity|]. split; [exact Hlb|].
  exists w2, ("(" ++ p ++ ")"), ((1, v) :: c).
  split; [reflexivity|]. split; [repeat split; auto; exact I|].
  exists ["("%char], (p ++ ")"), ((1, v) :: c).
  split; [reflexivity|]. split; [exists "("%char; auto|].
  exists p, [")"%char], ((2, p) :: (1, v) :: c).
  split; [reflexivity|]. split.
  { exists ((1, v) :: c). repeat split; auto; simpl; lia. }
  exists ")"%char. auto.
Qed.

(** X1: a text that holds a citation in the primary form anywhere, with
    anything before and after it, is read as a Published T.C. opinion
    whose volume and page are runs of one to four digits; an alternate
    citation elsewhere in the text changes nothing. *)
Theorem primary_citation_anywhere_wins pre v w1 l w2 p post :
  primary_citation v w1 l w2 p ->
  exists v' p',
    extract_from_text (pre ++ (v ++ w1 ++ l ++ w2 ++ "(" ++ p ++ ")") ++ post)
    = cited (PyStr "T.C.") (PyStr v') (PyStr p') "Published"
    /\ all_ok (Range "0" "9") v' /\ 1 <= List.length v' <= 4
    /\ all_ok Decimal p' /\ 1 <= List.length p' <= 4.
Proof.
  intros Hc.
  pose proof (search_complete tax_court_reports_regex pre _ post _
                (primary_sem_intro (last_of None pre) v w1 l w2 p post []
                                   Hc)) as Hfound.
  destruct (search tax_court_reports_regex
              (pre ++ (v ++ w1 ++ l ++ w2 ++ "(" ++ p ++ ")") ++ post))
    as [m|] eqn:E; [|congruence].
  unfold extract_from_text.
  rewrite (extract_primary tax_court_alt_regex _ m E).
  apply search_sound in E.
  destruct E as (pre0 & w & aft & c' & _ & Hs & ->).
  apply primary_sem in Hs.
  destruct Hs as (v' & ? & ? & ? & p' & _ & -> & Hv' & Hv'l & _ & _ & _ & _
                  & _ & Hp' & Hp'l).
  exists v', p'. repeat split; auto; lia.
Qed.

Lemma primary_citation_anywhere_wins_witness :
  exists v' p',
    extract_from_text
      ("T.C. Memo 2012-1, citing " ++ ("138" ++ " " ++
       "United States Tax Court Reports" ++ " " ++ "(" ++ "1" ++ ")")
       ++ " and others")
    = cited (PyStr "T.C.") (PyStr v') (PyStr p') "Published"
    /\ all_ok (Range "0" "9") v' /\ 1 <= List.length v' <= 4
    /\ all_ok Decimal p' /\ 1 <= List.length p' <= 4.
Proof.
  apply (primary_citation_anywhere_wins
           "T.C. Memo 2012-1, citing " "138" " "
           "United States Tax Court Reports" " " "1" " and others").
  unfold primary_citation.
  repeat split; try (simpl; lia);
    try (right; reflexivity); repeat constructor.
Defined.

End PrimaryAnywhere.

(** ** Volumes and pages of more than four digits *)

Section DigitBounds.

Lemma search_from_at r prev s m :
  match_at r prev s = Some m -> search_from r prev s = Some m.
Proof. intros H. destruct s; simpl; now rewrite H. Qed.

(** Positions at which nothing matches are passed over. *)
Lemma search_from_skip r ds :
  forall prev rest,
    (forall a b, ds = a ++ b -> b <> [] ->
                 match_at r (last_of prev a) (b ++ rest) = None) ->
    search_from r prev (ds ++ rest) = search_from r (last_of prev ds) rest.
Proof.
  induction ds as [|x ds IH]; intros prev rest H; [reflexivity|].
  cbn [app search_from].
  pose proof (H [] (x :: ds) eq_refl) as H0. simpl in H0.
  rewrite H0 by discriminate. cbn [orelse].
  apply IH. intros a b -> Hb. apply (H (x :: a) b); auto.
Qed.

(** A run of digits that is longer than what was read goes on with a
    digit. *)
Lemma digit_run_blocks (q : ascii -> bool) v' :
  forall D R s R',
    Forall (fun x => q x = true) D -> List.length v' < List.length D ->
    D ++ R = v' ++ s :: R' -> q s = true.
Proof.
  induction v' as [|y v' IH]; intros [|x D] R s R' HD Hlen E;
    simpl in Hlen; try lia.
  - simpl in E. injection E as -> _. now inversion HD.
  - simpl in E. injection E as _ E. inversion HD; subst.
    apply (IH D R s R'); auto. lia.
Qed.

Lemma primary_match_at prev v w1 l w2 p :
  primary_citation v w1 l w2 p ->
  match_at tax_court_reports_regex prev
           (v ++ w1 ++ l ++ w2 ++ "(" ++ p ++ ")")
  = Some {| whole := v ++ w1 ++ l ++ w2 ++ "(" ++ p ++ ")";
            groups := [(2, p); (1, v)] |}.
Proof.
  intros (Hv & Hvl & Hw1 & Hw1l & Hl & Hw2 & Hw2l & Hp & Hpl).
  unfold match_at, tax_court_reports_regex. cbn [seq].
  seq_step. rep_step run_group_rep.
  { right. apply (head_fails_app (atom_ok Space)); auto using space_no_digit. }
  seq_step. rep_step run_rep.
  { right. now apply l_begins_with_u. }
  match goal with
  | |- run (Seq ?a (Seq ?b ?r)) ?k ?pv ?t ?c = ?m =>
      change (run (Seq a b) (run r k) pv t c = m)
  end.
  apply primary_reads_reporter; [exact Hl| |].
  { apply (head_fails_app (atom_ok Space)); auto using space_no_S. }
  seq_step. rep_step run_rep.
  { right. reflexivity. }
  seq_step. apply run_atom; [reflexivity|].
  seq_step. rep_step run_group_rep.
  { right. reflexivity. }
  apply run_atom; [reflexivity|].
  rewrite firstn_whole. reflexivity.
Qed.

(** X2: of a volume number of more than four digits only the last four
    are read: the match begins at the first position from which at most
    four digits are left before the white space. *)
Theorem long_volume_is_cut_to_four_digits ds v w1 l w2 p :
  all_ok (Range "0" "9") ds ->
  primary_citation v w1 l w2 p ->
  List.length v = 4 ->
  extract_from_text (ds ++ v ++ w1 ++ l ++ w2 ++ "(" ++ p ++ ")")
  = cited (PyStr "T.C.") (PyStr v) (PyStr p) "Published".
Proof.
  intros Hds Hc Hv4.
  assert (Hsearch :
            search tax_court_reports_regex
                   (ds ++ v ++ w1 ++ l ++ w2 ++ "(" ++ p ++ ")")
            = Some {| whole := v ++ w1 ++ l ++ w2 ++ "(" ++ p ++ ")";
                      groups := [(2, p); (1, v)] |});
    [|unfold extract_from_text;
      rewrite (extract_primary _ _ _ Hsearch); reflexivity].
  unfold search. rewrite search_from_skip.
  - apply search_from_at. now apply primary_match_at.
  - intros a b -> Hb.
    destruct (match_at tax_court_reports_regex (last_of None a)
                (b ++ v ++ w1 ++ l ++ w2 ++ "(" ++ p ++ ")"))
      as [m|] eqn:E; [exfalso|reflexivity].
    apply match_at_sound in E.
    destruct E as (w & aft & c' & Heq & Hs & _).
    apply primary_sem in Hs.
    destruct Hs as (v' & w1' & l' & w2' & p' & -> & _ & _ & Hv'l & Hw1'
                    & Hw1'l & _).
    destruct w1' as [|s w1']; [simpl in Hw1'l; lia|].
    inversion Hw1' as [|? ? Hs _]; subst.
    destruct Hc as (Hv & _).
    apply Forall_app in Hds. destruct Hds as [_ Hb'].
    assert (Hdigit : atom_ok (Range "0" "9") s = true).
    { rewrite <- !app_assoc in Heq. rewrite (app_assoc b v) in Heq.
      cbn [app] in Heq.
      eapply (digit_run_blocks (atom_ok (Range "0" "9")) v' (b ++ v));
        [ | |exact Heq].
      - apply Forall_app. split; assumption.
      - rewrite length_app. destruct b; [congruence|]. simpl. lia. }
    rewrite (space_no_digit s Hs) in Hdigit. discriminate.
Qed.

Lemma long_volume_is_cut_to_four_digits_witness :
  extract_from_text "123456 United States Tax Court Reports (7)"
  = cited (PyStr "T.C.") (PyStr "3456") (PyStr "7") "Published".
Proof.
  apply (long_volume_is_cut_to_four_digits
           "12" "3456" " " "United States Tax Court Reports" " " "7").
  - repeat constructor.
  - unfold primary_citation.
    repeat split; try (simpl; lia);
      try (right; reflexivity); repeat constructor.
  - reflexivity.
Defined.

End DigitBounds.

Section PageBound.

(** A character that occurs once splits a string in one way only. *)
Lemma single_occurrence_unique (h : ascii) :
  forall A A' B B',
    ~ In h A -> ~ In h B -> A ++ h :: B = A' ++ h :: B' ->
    A = A' /\ B = B'.
Proof.
  induction A as [|x A IH]; intros [|y A'] B B' HA HB E; simpl in *.
  - injection E as E. auto.
  - injection E as -> E. exfalso. apply HB. rewrite E.
    apply in_or_app. right. now left.
  - injection E as -> _. tauto.
  - injection E as -> E.
    destruct (IH A' B B') as [-> ->]; auto.
Qed.

Lemma lower_dot : forall y, lower_char y = "."%char -> y = "."%char.
Proof. intros y; each_char y; vm_compute; intros; congruence. Qed.

(** Both alternate forms hold "T.": a text without a full stop has no
    alternate match. *)
Lemma alt_sem_dot prev w aft c' :
  sem tax_court_alt_regex prev w aft [] c' -> In "."%char w.
Proof.
  assert (Hdot : forall l, ci_eq l "T." -> In "."%char l).
  { intros l H. apply ci_eq_cons_inv in H.
    destruct H as (x & l1 & -> & _ & H). apply ci_eq_cons_inv in H.
    destruct H as (y & l2 & -> & Hy & _). apply lower_dot in Hy.
    subst y. simpl. auto. }
  unfold tax_court_alt_regex. cbn [seq sem].
  intros (c1 & [(c2 & H & _)|H] & _).
  - destruct H as (l1 & ? & ? & -> & Hl1 & _).
    apply lit_sem in Hl1. destruct Hl1 as [Hl1 _].
    apply in_or_app. left. now apply Hdot.
  - destruct H as (v & ? & ? & -> & _ & H).
    destruct H as (ws1 & ? & ? & -> & _ & H).
    destruct H as (g9 & ? & ? & -> & (c9 & Hg9 & _) & _).
    destruct Hg9 as (la & ? & ? & -> & Ha & _).
    apply lit_sem in Ha. destruct Ha as [Ha _].
    rewrite !in_app_iff. right. right. left. left. now apply Hdot.
Qed.

Lemma no_alt_match text :
  ~ In "."%char text -> search tax_court_alt_regex text = None.
Proof.
  intros H. destruct (search tax_court_alt_regex text) eqn:E; auto.
  apply search_sound in E.
  destruct E as (pre & w & aft & c' & -> & Hs & _).
  apply alt_sem_dot in Hs. exfalso. apply H.
  rewrite !in_app_iff. auto.
Qed.

Lemma ci_eq_in c l s :
  ci_eq l s -> In c l -> In (lower_char c) (lower s).
Proof.
  unfold ci_eq. intros <- Hin. unfold lower. now apply in_map.
Qed.

Lemma reporter_name_chars c l :
  ci_eq l "UNITED STATES TAX COURT REPORT"
  \/ ci_eq l "UNITED STATES TAX COURT REPORTS" ->
  In c l -> c <> "."%char /\ c <> "("%char /\ c <> ")"%char.
Proof.
  intros Hl Hin.
  assert (Hlow : In (lower_char c) (lower "UNITED STATES TAX COURT REPORTS")).
  { destruct Hl as [Hl|Hl]; [|now apply (ci_eq_in c l)].
    apply (ci_eq_in c l _ Hl) in Hin.
    change (list_ascii_of_string "UNITED STATES TAX COURT REPORTS")
      with ("UNITED STATES TAX COURT REPORT" ++ ["S"%char]).
    unfold lower. rewrite map_app. apply in_or_app. now left. }
  repeat split; intros ->; vm_compute in Hlow;
    repeat (destruct Hlow as [Hlow|Hlow]; [discriminate|]); exact Hlow.
Qed.

(** X3: a page number of more than four digits is no page for the primary
    pattern: the citation is not recognised, and standing alone it leaves
    the metadata as created. *)
Theorem long_page_is_not_recognised v w1 l w2 p :
  all_ok (Range "0" "9") v -> all_ok Space w1 ->
  ci_eq l "UNITED STATES TAX COURT REPORT"
  \/ ci_eq l "UNITED STATES TAX COURT REPORTS" ->
  all_ok Space w2 ->
  all_ok Decimal p -> 5 <= List.length p ->
  search tax_court_reports_regex (v ++ w1 ++ l ++ w2 ++ "(" ++ p ++ ")")
  = None
  /\ extract_from_text (v ++ w1 ++ l ++ w2 ++ "(" ++ p ++ ")")
     = initial_metadata.
Proof.
  intros Hv Hw1 Hl Hw2 Hp Hlen.
  assert (Hnot : forall c, atom_ok (Range "0" "9") c = false ->
                           atom_ok Space c = false ->
                           (forall x, In x l -> x <> c) ->
                           ~ In c (v ++ w1 ++ l ++ w2)).
  { intros c Hd Hs Hlc Hin. rewrite !in_app_iff in Hin.
    destruct Hin as [H|[H|[H|H]]]; revert H.
    - now apply (class_excludes (atom_ok (Range "0" "9"))).
    - now apply (class_excludes (atom_ok Space)).
    - intros H. now apply (Hlc c H).
    - now apply (class_excludes (atom_ok Space)). }
  assert (Hprimary :
            search tax_court_reports_regex
                   (v ++ w1 ++ l ++ w2 ++ "(" ++ p ++ ")") = None).
  { destruct (search tax_court_reports_regex
                (v ++ w1 ++ l ++ w2 ++ "(" ++ p ++ ")")) as [m|] eqn:E;
      [exfalso|reflexivity].
    apply search_sound in E.
    destruct E as (pre & w & aft & c' & Heq & Hs & _).
    apply primary_sem in Hs.
    destruct Hs as (v' & w1' & l' & w2' & p' & -> & _ & _ & _ & _ & _ & _
                    & _ & _ & Hp' & Hp'l).
    assert (E : (v ++ w1 ++ l ++ w2) ++ "("%char :: p ++ [")"%char]
                = (pre ++ v' ++ w1' ++ l' ++ w2')
                    ++ "("%char :: (p' ++ ")"%char :: aft)).
    { repeat rewrite <- app_assoc. repeat rewrite <- app_assoc in Heq.
      exact Heq. }
    apply single_occurrence_unique in E.
    - destruct E as [_ E].
      apply first_occurrence_unique in E.
      + subst p'. lia.
      + now apply (class_excludes (atom_ok Decimal)).
      + now apply (class_excludes (atom_ok Decimal)).
    - apply Hnot; try reflexivity.
      intros x Hx. now apply (reporter_name_chars x l Hl).
    - intros Hin. apply in_app_or in Hin. destruct Hin as [Hin|Hin].
      + revert Hin. now apply (class_excludes (atom_ok Decimal)).
      + simpl in Hin. destruct Hin as [Hin|[]]. discriminate. }
  split; [exact Hprimary|].
  unfold extract_from_text, extract_with. rewrite Hprimary.
  rewrite no_alt_match; [reflexivity|].
  intros Hin. rewrite !app_assoc in Hin. apply in_app_or in Hin.
  destruct Hin as [Hin|Hin].
  - apply in_app_or in Hin. destruct Hin as [Hin|Hin].
    + apply in_app_or in Hin. destruct Hin as [Hin|Hin].
      * rewrite <- !app_assoc in Hin. revert Hin.
        apply Hnot; try reflexivity.
        intros x Hx. now apply (reporter_name_chars x l Hl).
      * simpl in Hin. destruct Hin as [Hin|[]]. discriminate.
    + revert Hin. now apply (class_excludes (atom_ok Decimal)).
  - simpl in Hin. destruct Hin as [Hin|[]]. discriminate.
Qed.

Lemma long_page_is_not_recognised_witness :
  search tax_court_reports_regex
         "138 United States Tax Court Reports (12345)" = None
  /\ extract_from_text "138 United States Tax Court Reports (12345)"
     = initial_metadata.
Proof.
  apply (long_page_is_not_recognised
           "138" " " "United States Tax Court Reports" " " "12345");
    try (simpl; lia); try (right; reflexivity); repeat constructor.
Defined.

End PageBound.

(** ** What the extracted metadata always looks like *)

Section MetadataShape.

(** X4: the metadata has one of three shapes.  Nothing is set and the
    status is empty; or the status is Published, the reporter is T.C. and
    volume and page are set; or the status is Unpublished, volume and page
    are set and the reporter, if set, is one of the two Memorandum/Summary
    reporters.  Volume and page are never set one without the other, and
    the status is never any other string. *)
Theorem extracted_fields_go_together text :
  type (Citation (extract_from_text text)) = SPECIALTY
  /\ (extract_from_text text = initial_metadata
      \/ (exists vol pg,
             extract_from_text text
             = cited (PyStr "T.C.") vol pg "Published")
      \/ (exists vol pg,
             precedential_status (OpinionCluster (extract_from_text text))
             = "Unpublished"
             /\ volume (Citation (extract_from_text text)) = Some vol
             /\ page (Citation (extract_from_text text)) = Some pg
             /\ (reporter (Citation (extract_from_text text)) = None
                 \/ reporter (Citation (extract_from_text text))
                    = Some (PyStr "T.C. Memo.")
                 \/ reporter (Citation (extract_from_text text))
                    = Some (PyStr "T.C. Summary Opinion")))).
Proof.
  unfold extract_from_text, extract_with.
  destruct (search tax_court_reports_regex text) as [m|].
  { split; [reflexivity|]. right. left. do 2 eexists. reflexivity. }
  destruct (search tax_court_alt_regex text) as [m|].
  2: { split; [reflexivity|]. now left. }
  destruct (contains "No." (whole m)).
  { split; [reflexivity|]. right. left. do 2 eexists. reflexivity. }
  split.
  - destruct (contains "Memo" (whole m)); [reflexivity|].
    destruct (contains "Summary" (whole m)); reflexivity.
  - right. right.
    exists (of_group (group m 6)), (of_group (group m 7)).
    destruct (contains "Memo" (whole m)); [simpl; auto 6|].
    destruct (contains "Summary" (whole m)); simpl; auto 6.
Qed.

End MetadataShape.

(** ** Labels in another letter case or with white space around them *)

Section Labels.

Lemma is_space_lower_char :
  forall c, is_space (lower_char c) = is_space c.
Proof. intros c; each_char c; reflexivity. Qed.

Lemma lower_app a b : lower (a ++ b) = lower a ++ lower b.
Proof. apply map_app. Qed.

Lemma lower_spaces ws :
  all_ok Space ws -> all_ok Space (lower ws).
Proof.
  unfold all_ok, lower. intros H. apply Forall_map.
  rewrite Forall_forall in *. intros x Hx. simpl.
  rewrite is_space_lower_char. now apply H.
Qed.

Lemma lstrip_spaces ws :
  forall s, all_ok Space ws -> lstrip (ws ++ s) = lstrip s.
Proof.
  induction ws as [|x ws IH]; intros s H; [reflexivity|].
  inversion H as [|? ? Hx Hws]; subst. simpl in *. rewrite Hx. now apply IH.
Qed.

(** [strip] removes white space and nothing else. *)
Lemma lstrip_decompose s :
  exists ws, s = ws ++ lstrip s /\ all_ok Space ws.
Proof.
  induction s as [|x s (ws & E & Hws)]; simpl.
  - exists []. split; [reflexivity|constructor].
  - destruct (is_space x) eqn:Hx.
    + exists (x :: ws). split; [simpl; now rewrite <- E|].
      constructor; assumption.
    + exists []. split; [reflexivity|constructor].
Qed.

Lemma strip_decompose s :
  exists ws1 ws2,
    s = ws1 ++ strip s ++ ws2 /\ all_ok Space ws1 /\ all_ok Space ws2.
Proof.
  destruct (lstrip_decompose s) as (ws1 & E1 & H1).
  destruct (lstrip_decompose (rev (lstrip s))) as (ws2 & E2 & H2).
  exists ws1, (rev ws2). repeat split; auto.
  - unfold strip, rstrip. rewrite <- rev_app_distr, <- E2, rev_involutive.
    exact E1.
  - unfold all_ok in *. now apply Forall_rev.
Qed.

Lemma startswith_before_spaces needle ws :
  Forall (fun x => is_space x = false) needle -> all_ok Space ws ->
  forall a, needle <> [] ->
            startswith needle (a ++ ws) = startswith needle a.
Proof.
  intros Hn Hws.
  induction Hn as [|h t Hh Ht IH]; intros a Hne; [congruence|].
  destruct a as [|y a]; simpl.
  - destruct ws as [|x ws]; [reflexivity|]. inversion Hws; subst.
    simpl in *. destruct (Ascii.eqb_spec h x) as [->|]; [congruence|].
    reflexivity.
  - destruct t as [|h2 t].
    + simpl. reflexivity.
    + rewrite IH by discriminate. reflexivity.
Qed.

Lemma contains_before_spaces needle ws :
  Forall (fun x => is_space x = false) needle -> all_ok Space ws ->
  needle <> [] ->
  forall a, contains needle (a ++ ws) = contains needle a.
Proof.
  intros Hn Hws Hne. induction a as [|y a IH].
  - destruct needle as [|h t]; [congruence|].
    inversion Hn; subst. cbn [app].
    rewrite <- (app_nil_r ws), contains_skip; [reflexivity|].
    now apply (class_excludes (atom_ok Space)).
  - cbn [app contains].
    change (y :: a ++ ws) with ((y :: a) ++ ws).
    rewrite startswith_before_spaces, IH by assumption. reflexivity.
Qed.

Lemma contains_among_spaces needle ws1 ws2 a :
  Forall (fun x => is_space x = false) needle -> needle <> [] ->
  all_ok Space ws1 -> all_ok Space ws2 ->
  contains needle (ws1 ++ a ++ ws2) = contains needle a.
Proof.
  intros Hn Hne H1 H2. destruct needle as [|h t]; [congruence|].
  rewrite contains_skip.
  - now apply contains_before_spaces.
  - inversion Hn; subst. now apply (class_excludes (atom_ok Space)).
Qed.

Lemma classify_among_spaces ws1 ws2 a :
  all_ok Space ws1 -> all_ok Space ws2 ->
  classify (ws1 ++ a ++ ws2) = classify a.
Proof.
  intros H1 H2. unfold classify.
  rewrite !contains_among_spaces; auto; try discriminate;
    repeat constructor.
Qed.

(** X5: the status of a label depends neither on its letter case nor on
    the white space around it, and the call of [strip] changes no
    status. *)
Theorem status_ignores_case_and_outer_space a b ws1 ws2 :
  ci_eq a b -> all_ok Space ws1 -> all_ok Space ws2 ->
  classify (lower (strip (ws1 ++ a ++ ws2))) = classify (lower (strip b))
  /\ classify (lower (strip a)) = classify (lower a).
Proof.
  intros Hab H1 H2.
  assert (Hstrip : forall s, classify (lower (strip s)) = classify (lower s)).
  { intros s. destruct (strip_decompose s) as (u1 & u2 & E & Hu1 & Hu2).
    rewrite E at 2. rewrite !lower_app.
    now rewrite classify_among_spaces by now apply lower_spaces. }
  split; [|apply Hstrip].
  rewrite !Hstrip, !lower_app.
  rewrite classify_among_spaces by now apply lower_spaces.
  now rewrite Hab.
Qed.

Lemma status_ignores_case_and_outer_space_witness :
  classify (lower (strip ("  " ++ "SUMMARY opinion" ++ " ")))
  = classify (lower (strip "Summary Opinion")).
Proof.
  apply (status_ignores_case_and_outer_space
           "SUMMARY opinion" "Summary Opinion" "  " " ");
    [reflexivity| |]; repeat constructor.
Defined.

End Labels.

(** ** Case names, filing dates and repaired URLs *)

Section Trimming.

Lemma lstrip_head s c rest : lstrip s = c :: rest -> is_space c = false.
Proof.
  induction s as [|x s IH]; simpl; [discriminate|].
  destruct (is_space x) eqn:Hx; [exact IH|].
  intros H. injection H as <- _. exact Hx.
Qed.

Lemma lstrip_fixed s :
  (forall c rest, s = c :: rest -> is_space c = false) -> lstrip s = s.
Proof.
  destruct s as [|x s]; [reflexivity|]. intros H. simpl.
  now rewrite (H x s eq_refl).
Qed.

Lemma strip_trimmed s : trimmed (strip s).
Proof.
  destruct (lstrip_decompose (rev (lstrip s))) as (ws & E & Hws).
  assert (Hpre : lstrip s = strip s ++ rev ws).
  { unfold strip, rstrip. rewrite <- rev_app_distr, <- E.
    now rewrite rev_involutive. }
  split.
  - intros c rest Hc. rewrite Hc in Hpre. simpl in Hpre.
    now apply (lstrip_head s c (rest ++ rev ws)).
  - intros front c Hc. unfold strip, rstrip in Hc.
    apply (f_equal (@rev ascii)) in Hc.
    rewrite rev_involutive, rev_app_distr in Hc. simpl in Hc.
    now apply (lstrip_head _ _ _ Hc).
Qed.

Lemma strip_fixed s : trimmed s -> strip s = s.
Proof.
  intros [Hhead Hlast]. unfold strip, rstrip.
  rewrite (lstrip_fixed s Hhead). rewrite lstrip_fixed.
  - apply rev_involutive.
  - intros c rest Hc. apply (Hlast (rev rest) c).
    apply (f_equal (@rev ascii)) in Hc. rewrite rev_involutive in Hc.
    exact Hc.
Qed.

Lemma strip_among_spaces ws1 core ws2 :
  all_ok Space ws1 -> all_ok Space ws2 -> trimmed core ->
  strip (ws1 ++ core ++ ws2) = core.
Proof.
  intros H1 H2 [Hhead Hlast]. unfold strip.
  rewrite lstrip_spaces by assumption.
  destruct core as [|c rest].
  - simpl. replace ws2 with (ws2 ++ []) by apply app_nil_r.
    rewrite lstrip_spaces by assumption. reflexivity.
  - assert (Hl : lstrip ((c :: rest) ++ ws2) = (c :: rest) ++ ws2).
    { simpl. now rewrite (Hhead c rest eq_refl). }
    rewrite Hl. unfold rstrip. rewrite rev_app_distr.
    rewrite lstrip_spaces by (unfold all_ok in *; now apply Forall_rev).
    rewrite lstrip_fixed; [apply rev_involutive|].
    intros x tl Hx. apply (Hlast (rev tl) x).
    apply (f_equal (@rev ascii)) in Hx. rewrite rev_involutive in Hx.
    exact Hx.
Qed.

(** X6: entry [i] of the case names is the text of the [i]-th first column
    without the white space at its two ends, followed by
    " v. Commissioner".  The text of a column splits in one way into white
    space, a part with no white space at either end, and white space; the
    name is that middle part and the suffix.  There is one name for each
    first column and a name is never empty, also for an empty column. *)
Theorem case_names_are_trimmed_and_suffixed html :
  List.length (_get_case_names html) = List.length (xpath_td 1 false html)
  /\ forall i td,
      nth_error (xpath_td 1 false html) i = Some td ->
      (exists ws1 core ws2,
          text_content td = ws1 ++ core ++ ws2
          /\ all_ok Space ws1 /\ all_ok Space ws2 /\ trimmed core)
      /\ (forall ws1 core ws2,
             text_content td = ws1 ++ core ++ ws2 ->
             all_ok Space ws1 -> all_ok Space ws2 -> trimmed core ->
             nth_error (_get_case_names html) i
             = Some (core ++ " v. Commissioner")
             /\ 16 <= List.length (core ++ " v. Commissioner")).
Proof.
  unfold _get_case_names. split; [apply length_map|].
  intros i td Htd. split.
  - destruct (strip_decompose (text_content td)) as (ws1 & ws2 & E & H1 & H2).
    exists ws1, (strip (text_content td)), ws2.
    repeat split; try assumption; apply strip_trimmed.
  - intros ws1 core ws2 E H1 H2 Hcore. split.
    + rewrite nth_error_map, Htd. simpl.
      now rewrite E, strip_among_spaces.
    + rewrite length_app. simpl. lia.
Qed.

Lemma case_names_are_trimmed_and_suffixed_witness :
  nth_error (_get_case_names sample_page) 0
  = Some (list_ascii_of_string "Estate of Smith" ++ " v. Commissioner")
  /\ 16 <= List.length
             (list_ascii_of_string "Estate of Smith" ++ " v. Commissioner").
Proof.
  apply (proj2 (proj2 (case_names_are_trimmed_and_suffixed sample_page) 0
                  (Element "td" []
                     [Element "a"
                        [("href" : str,
                          "https://www.ustaxcourt.gov/UstcInOp/OpinionViewer.aspx?ID=11815" : str)]
                        [Text " Estate of Smith "]])
                  eq_refl)
           " " "Estate of Smith" " ").
  - reflexivity.
  - repeat constructor.
  - repeat constructor.
  - split.
    + intros c rest H. injection H as <- _. reflexivity.
    + intros front c H.
      apply (f_equal (@rev ascii)) in H. rewrite rev_app_distr in H.
      simpl in H. injection H as <- _. reflexivity.
Defined.

End Trimming.

Section FilingDates.

Variable strptime : str -> option date.

Lemma parse_dates_none tds :
  parse_dates strptime tds = None
  <-> Exists (fun td => strptime (strip (text_content td)) = None) tds.
Proof.
  induction tds as [|td tds IH]; simpl.
  - split; [discriminate|]. intros H. inversion H.
  - destruct (strptime (strip (text_content td))) as [d|] eqn:E.
    + destruct (parse_dates strptime tds) as [ds|].
      * split; [discriminate|]. intros H.
        inversion H as [? ? H0|? ? H0]; subst; [congruence|].
        apply IH in H0. discriminate.
      * split; [|reflexivity]. intros _. apply Exists_cons_tl.
        now apply IH.
    + split; [|reflexivity]. intros _. now apply Exists_cons_hd.
Qed.

Lemma parse_dates_some tds :
  forall dates,
    parse_dates strptime tds = Some dates ->
    Forall2 (fun td d => strptime (strip (text_content td)) = Some d)
            tds dates.
Proof.
  induction tds as [|td tds IH]; simpl; intros dates H.
  - injection H as <-. constructor.
  - destruct (strptime (strip (text_content td))) as [d|] eqn:E;
      [|discriminate].
    destruct (parse_dates strptime tds) as [ds|]; [|discriminate].
    injection H as <-. constructor; auto.
Qed.

(** X7: the dates getter fails as a whole exactly when the text of some
    third column does not parse; when it returns, it returns one date per
    third column, in order, each the parse of its column. *)
Theorem case_dates_all_or_nothing html :
  (_get_case_dates strptime html = None
   <-> Exists (fun td => strptime (strip (text_content td)) = None)
              (xpath_td 3 false html))
  /\ forall dates,
      _get_case_dates strptime html = Some dates ->
      Forall2 (fun td d => strptime (strip (text_content td)) = Some d)
              (xpath_td 3 false html) dates.
Proof.
  unfold _get_case_dates. split.
  - apply parse_dates_none.
  - apply parse_dates_some.
Qed.

End FilingDates.

Lemma case_dates_all_or_nothing_witness :
  _get_case_dates strptime_mdY misdated_page = None
  /\ Forall2 (fun td d => strptime_mdY (strip (text_content td)) = Some d)
             (xpath_td 3 false sample_page)
             [the_date 2012 11 5; the_date 2012 11 6].
Proof.
  split.
  - apply (proj1 (case_dates_all_or_nothing strptime_mdY misdated_page)).
    apply Exists_cons_tl, Exists_cons_hd. vm_compute. reflexivity.
  - apply (proj2 (case_dates_all_or_nothing strptime_mdY sample_page)).
    vm_compute. reflexivity.
Defined.

Section RepairedUrls.

Lemma replace_first_occurrence old new :
  old <> [] ->
  forall s, occurs old s ->
            exists pre rest, replace old new s = pre ++ new ++ rest.
Proof.
  intros Hne. destruct old as [|x old]; [congruence|].
  induction s as [|c s IH]; intros (pre & post & E).
  - destruct pre; discriminate.
  - destruct (startswith (x :: old) (c :: s)) eqn:Hs.
    + apply startswith_spec in Hs. destruct Hs as [post' ->].
      rewrite replace_occurrence. exists []. simpl. eauto.
    + destruct pre as [|y pre].
      * assert (startswith (x :: old) (c :: s) = true)
          by (apply startswith_spec; exists post; exact E).
        congruence.
      * simpl in E. injection E as -> ->.
        destruct IH as (pre' & rest & IH); [exists pre, post; reflexivity|].
        unfold replace in *. cbn [replace_from]. rewrite Hs, IH.
        exists (y :: pre'), rest. reflexivity.
Qed.

(** X8: rewriting a URL a second time changes nothing, and a link in the
    hash form always comes out with the "?ID" marker in it. *)
Theorem rewrite_href_settles href :
  rewrite_href (rewrite_href href) = rewrite_href href
  /\ (occurs "OpinionSearch.aspx#" href -> occurs "?ID" (rewrite_href href)).
Proof.
  unfold rewrite_href.
  destruct (contains "?ID" href) eqn:Hid.
  - rewrite Hid. split; [reflexivity|]. intros _. now apply contains_spec.
  - destruct (contains "OpinionSearch.aspx#" href) eqn:Hold.
    + apply contains_spec in Hold.
      destruct (replace_first_occurrence
                  "OpinionSearch.aspx#" "OpinionViewer.aspx?ID="
                  ltac:(discriminate) href Hold) as (pre & rest & E).
      assert (Hnew : occurs "?ID"
                       (replace "OpinionSearch.aspx#"
                                "OpinionViewer.aspx?ID=" href)).
      { rewrite E. exists (pre ++ "OpinionViewer.aspx"), ("=" ++ rest).
        rewrite <- !app_assoc. reflexivity. }
      split; [|intros _; exact Hnew].
      apply contains_spec in Hnew. now rewrite Hnew.
    + apply contains_false in Hold.
      rewrite (replace_absent _ _ href Hold), Hid.
      split; [now apply replace_absent|]. intros H. contradiction.
Qed.

Lemma rewrite_href_settles_witness :
  occurs "?ID"
         (rewrite_href
            "https://www.ustaxcourt.gov/UstcInOp/OpinionSearch.aspx#11813").
Proof.
  apply (proj2 (rewrite_href_settles
                  "https://www.ustaxcourt.gov/UstcInOp/OpinionSearch.aspx#11813")).
  exists "https://www.ustaxcourt.gov/UstcInOp/", "11813". reflexivity.
Defined.

End RepairedUrls.

(** ** Rows that are not well formed *)

Section RaggedRows.

Lemma xpath_td_of_tidy_row i r :
  is_result_row r = true -> tidy_row r -> 1 <= i ->
  xpath_td i false r = column i r.
Proof.
  intros Hrow Hok Hi.
  destruct r as [s|tag attrib cs]; [discriminate|].
  cbn [xpath_td]. rewrite Hrow. cbn [orb].
  unfold tidy_row in Hok. cbn [children_of] in Hok.
  rewrite td_children_of_row by (auto; lia).
  unfold column, row_cells. cbn [children_of].
  now rewrite Nat.sub_0_r.
Qed.

Lemma flat_map_flat_map_eq {A B C} (f : A -> list B) (g : A -> list C)
      (h : C -> list B) l :
  Forall (fun x => f x = flat_map h (g x)) l ->
  flat_map f l = flat_map h (flat_map g l).
Proof.
  induction 1 as [|x l Hx _ IH]; simpl; [reflexivity|].
  now rewrite flat_map_app, Hx, IH.
Qed.

(** Each query returns the [i]-th column of the rows that have one, in
    the order of the rows. *)
Lemma xpath_td_by_tidy_rows i n :
  1 <= i ->
  Forall tidy_row (xpath_rows n) ->
  xpath_td i false n = flat_map (column i) (xpath_rows n).
Proof.
  intros Hi.
  induction n as [s|tag attrib cs IH] using node_induction; intros Hwf.
  - reflexivity.
  - rewrite xpath_rows_element in *.
    destruct (is_result_row (Element tag attrib cs)) eqn:Hrow.
    + inversion Hwf as [|? ? Hr _]; subst.
      rewrite xpath_td_of_tidy_row by auto.
      unfold tidy_row in Hr. cbn [children_of] in Hr.
      rewrite (flat_map_nil xpath_rows cs).
      * cbn [app flat_map]. now rewrite app_nil_r.
      * rewrite forallb_forall in Hr. apply Forall_forall.
        intros c Hc. apply cell_ok_no_rows; auto.
    + cbn [xpath_td]. rewrite Hrow. cbn [orb app] in *.
      rewrite td_children_outside. apply flat_map_flat_map_eq.
      apply Forall_flat_map in Hwf.
      rewrite Forall_forall in *. intros c Hc. apply IH; auto.
Qed.





(** Outside the result rows no href is selected. *)
Lemma xpath_href_by_unnested_rows n :
  Forall unnested_row (xpath_rows n) ->
  xpath_href false n = flat_map row_hrefs (xpath_rows n).
Proof.
  induction n as [s|tag attrib cs IH] using node_induction; intros Hwf.
  - reflexivity.
  - rewrite xpath_rows_element in *.
    destruct (is_result_row (Element tag attrib cs)) eqn:Hrow.
    + inversion Hwf as [|? ? Hr _]; subst.
      rewrite xpath_href_of_row by assumption.
      unfold unnested_row in Hr. cbn [children_of] in Hr. rewrite Hr.
      cbn [app flat_map]. now rewrite app_nil_r.
    + cbn [xpath_href]. rewrite Hrow. cbn [orb app] in *.
      apply flat_map_flat_map_eq. apply Forall_flat_map in Hwf.
      rewrite Forall_forall in *. intros c Hc. apply IH; auto.
Qed.



(** X11: on a page without result rows every getter returns an empty
    list and none fails, whatever else the page holds. *)
Theorem page_without_rows_gives_nothing strptime html :
  xpath_rows html = [] ->
  _get_case_names html = []
  /\ _get_case_name_shorts html = []
  /\ _get_precedential_statuses html = []
  /\ _get_case_dates strptime html = Some []
  /\ _get_download_urls html = [].
Proof.
  intros Hrows.
  unfold _get_case_names, _get_precedential_statuses, _get_case_dates,
    _get_case_name_shorts, _get_case_names, _get_download_urls.
  rewrite !xpath_td_by_tidy_rows by (rewrite ?Hrows; auto; lia).
  rewrite xpath_href_by_unnested_rows by (rewrite Hrows; constructor).
  rewrite Hrows. repeat split.
Qed.

Lemma page_without_rows_gives_nothing_witness :
  _get_case_names
    (Element "table" []
       [Element "tr" [("class" : str, "ResultsHeader" : str)]
          [Element "td" []
             [Element "a" [("href" : str, "Help.aspx" : str)]
                [Text "Case Name"]]]])
  = []
  /\ _get_download_urls
       (Element "table" []
          [Element "tr" [("class" : str, "ResultsHeader" : str)]
             [Element "td" []
                [Element "a" [("href" : str, "Help.aspx" : str)]
                   [Text "Case Name"]]]])
     = [].
Proof.
  destruct (page_without_rows_gives_nothing
              strptime_mdY
              (Element "table" []
                 [Element "tr" [("class" : str, "ResultsHeader" : str)]
                    [Element "td" []
                       [Element "a" [("href" : str, "Help.aspx" : str)]
                          [Text "Case Name"]]]]) eq_refl)
    as (Hn & _ & _ & _ & Hu).
  split; assumption.
Defined.

End RaggedRows.

(** ** What a call of the driver leaves behind *)

Section DriverState.
Local Open Scope Z_scope.

Variable remote : nat -> date * date -> outcome (option node).

(** X12: whatever the search answers, the driver leaves the lookback at 7
    days and the case date at its argument, so that a later download
    searches the same seven days and not the fourteen of a fresh site.
    A failed search leaves the document and the status as they were; a
    search that returns stores what it returned.  The status is set to 200
    exactly when a document came back, and the driver never clears it. *)
Theorem driver_leaves_its_settings d s :
  backwards_days (fst (_download_backwards remote d s)) = 7
  /\ case_date (fst (_download_backwards remote d s)) = d
  /\ fetched (fst (_download remote (fst (_download_backwards remote d s))))
     = fetched s ++ [(d - 7, d); (d - 7, d)]
  /\ (snd (_download_backwards remote d s) = Raised ->
      html (fst (_download_backwards remote d s)) = html s
      /\ status (fst (_download_backwards remote d s)) = status s)
  /\ (snd (_download_backwards remote d s) = Returned tt ->
      (html (fst (_download_backwards remote d s)) <> None ->
       status (fst (_download_backwards remote d s)) = Some 200)
      /\ (html (fst (_download_backwards remote d s)) = None ->
          status (fst (_download_backwards remote d s)) = status s))
  /\ (status s <> None ->
      status (fst (_download_backwards remote d s)) <> None).
Proof.
  unfold _download_backwards, _download. simpl.
  destruct (remote _ _) as [[h|]|]; simpl;
    rewrite <- ?app_assoc; repeat split; auto; try discriminate;
    try congruence.
Qed.

End DriverState.

Lemma driver_leaves_its_settings_witness :
  (html (fst (_download_backwards always_raises (the_date 2012 1 9)
                                  fresh_site)) = html fresh_site
   /\ status (fst (_download_backwards always_raises (the_date 2012 1 9)
                                       fresh_site)) = status fresh_site)
  /\ status (fst (_download_backwards never_found (the_date 2012 1 9)
                                      after_first_call)) <> None.
Proof.
  split.
  - apply (driver_leaves_its_settings
             always_raises (the_date 2012 1 9) fresh_site).
    reflexivity.
  - apply (driver_leaves_its_settings
             never_found (the_date 2012 1 9) after_first_call).
    vm_compute. discriminate.
Defined.

(** ** The days the back-scrape searches *)

Section Coverage.
Local Open Scope Z_scope.

Lemma in_weekly d n x :
  In x (weekly d n) <-> exists k, (k < n)%nat /\ x = d + 7 * Z.of_nat k.
Proof.
  unfold weekly. rewrite in_map_iff. split.
  - intros (k & <- & Hk). apply in_seq in Hk. exists k. split; [lia|auto].
  - intros (k & Hk & ->). exists k. split; [reflexivity|].
    apply in_seq. lia.
Qed.

Lemma back_scrape_iterable_weekly :
  back_scrape_iterable = weekly 728561 1208.
Proof.
  unfold back_scrape_iterable. rewrite rrule_weekly_weekly. reflexivity.
Qed.

(** X13: the seven-day ranges the driver searches for the dates of the
    iterable leave no gap: every day from 18 September 1995 to 12 November
    2018 lies in the range of some date, each range begins on the date
    before it in the iterable, and 13 November 2018, the end of the
    window, lies in no range. *)
Theorem back_scrape_ranges_leave_no_gap
        (remote : nat -> date * date -> outcome (option node)) (s : site) :
  (forall x,
      window_start - 7 <= x <= window_end - 1 ->
      exists d,
        In d back_scrape_iterable
        /\ last (fetched (fst (_download_backwards remote d s))) (0, 0)
           = (d - 7, d)
        /\ d - 7 <= x <= d)
  /\ (forall d, In d back_scrape_iterable -> d <> window_start ->
                In (d - 7) back_scrape_iterable)
  /\ (forall d, In d back_scrape_iterable -> d < window_end).
Proof.
  assert (Hs : window_start = 728561) by reflexivity.
  assert (He : window_end = 737011) by reflexivity.
  rewrite back_scrape_iterable_weekly, Hs, He.
  split; [|split].
  - intros x Hx.
    assert (Hlast : forall d,
               last (fetched (fst (_download_backwards remote d s))) (0, 0)
               = (d - 7, d)).
    { intros d. rewrite _download_backwards_fetches. apply last_last. }
    destruct (Z_le_gt_dec x 728561) as [Hle|Hgt].
    + exists 728561. split; [|split; [apply Hlast|lia]].
      apply in_weekly. exists 0%nat. split; [lia|reflexivity].
    + pose proof (Z.div_mod (x - 728561 + 6) 7 ltac:(lia)) as Hdm.
      pose proof (Z.mod_pos_bound (x - 728561 + 6) 7 ltac:(lia)) as Hmod.
      assert (0 <= (x - 728561 + 6) / 7) by (apply Z.div_pos; lia).
      exists (728561 + 7 * Z.of_nat (Z.to_nat ((x - 728561 + 6) / 7))).
      split; [|split; [apply Hlast|rewrite Z2Nat.id by assumption; lia]].
      apply in_weekly. exists (Z.to_nat ((x - 728561 + 6) / 7)).
      split; [lia|reflexivity].
  - intros d Hd Hne. apply in_weekly in Hd. destruct Hd as (k & Hk & ->).
    apply in_weekly. destruct k as [|k]; [simpl in Hne; lia|].
    exists k. split; lia.
  - intros d Hd. apply in_weekly in Hd. destruct Hd as (k & Hk & ->). lia.
Qed.

Lemma back_scrape_ranges_leave_no_gap_witness :
  exists d,
    In d back_scrape_iterable
    /\ last (fetched (fst (_download_backwards always_found d fresh_site)))
            (0%Z, 0%Z)
       = ((d - 7)%Z, d)
    /\ (d - 7 <= the_date 2012 1 5 <= d)%Z.
Proof.
  apply (proj1 (back_scrape_ranges_leave_no_gap always_found fresh_site)).
  vm_compute. split; discriminate.
Defined.

End Coverage.

(** ** No link is left in the hash form *)

Section ReplaceAll.

Variables (body new : str) (h : ascii).

Hypothesis Hnew : ~ In h new.
Hypothesis Hlen : List.length (body ++ [h]) <= List.length new.
Hypothesis Hover : no_overlap new (body ++ [h]) = true.

Lemma startswith_app_cases p a :
  forall t, startswith p (a ++ t) = true ->
            startswith p a = true \/ startswith a p = true.
Proof.
  revert a. induction p as [|x p IH]; intros a t H; [now left|].
  destruct a as [|y a]; [now right|].
  simpl in *. apply andb_true_iff in H. destruct H as [Hxy H].
  rewrite Hxy. apply Ascii.eqb_eq in Hxy. subst y.
  rewrite Ascii.eqb_refl. simpl. now apply (IH a t).
Qed.

Lemma startswith_app_left p a t :
  startswith p a = true -> startswith p (a ++ t) = true.
Proof.
  intros H. apply startswith_spec in H. destruct H as [post ->].
  apply startswith_spec. exists (post ++ t). now rewrite app_assoc.
Qed.

(** [old] ends in [h], which [new] does not hold. *)
Lemma old_not_within u : startswith (body ++ [h]) u = true -> In h u.
Proof.
  intros H. apply startswith_spec in H. destruct H as [post ->].
  rewrite !in_app_iff. left. right. now left.
Qed.

Lemma h_at_body u post :
  u = body ++ h :: post -> nth_error u (List.length body) = Some h.
Proof.
  intros ->. rewrite nth_error_app2, Nat.sub_diag by lia. reflexivity.
Qed.

Lemma prefix_of_longer (o a x p : str) :
  a ++ x = o ++ p -> List.length o <= List.length a ->
  exists a', a = o ++ a'.
Proof.
  revert a. induction o as [|y o IH]; intros a E Hl; [now exists a|].
  destruct a as [|z a]; [simpl in Hl; lia|].
  simpl in E. injection E as -> E.
  destruct (IH a E) as [a' ->]; [simpl in Hl; lia|]. now exists a'.
Qed.

(** A beginning of [old] that runs into the replaced text was there
    before the replacement. *)
Lemma startswith_before_replace s :
  forall a,
    startswith (body ++ [h]) (a ++ replace (body ++ [h]) new s) = true ->
    startswith (body ++ [h]) (a ++ s) = true.
Proof.
  assert (Hold : exists x o, body ++ [h] = x :: o).
  { destruct body; simpl; eauto. }
  destruct Hold as (x & o & Hold).
  induction s as [|c s IH]; intros a H; [exact H|].
  destruct (startswith (body ++ [h]) (c :: s)) eqn:Hs.
  - apply startswith_spec in Hs. destruct Hs as [post Hs].
    rewrite Hs in H |- *.
    rewrite Hold, replace_occurrence, <- Hold in H.
    apply startswith_spec in H. destruct H as [post' H].
    rewrite <- app_assoc in H. simpl in H.
    pose proof (h_at_body _ _ H) as Hnth.
    destruct (Nat.lt_ge_cases (List.length body) (List.length a))
      as [Hlt|Hge].
    + destruct (prefix_of_longer (body ++ [h]) a
                  (new ++ replace (body ++ [h]) new post) post')
        as [a' ->].
      * rewrite <- app_assoc. exact H.
      * rewrite length_app. simpl. lia.
      * apply startswith_spec. exists (a' ++ (body ++ [h]) ++ post).
        now rewrite <- !app_assoc.
    + exfalso. rewrite nth_error_app2 in Hnth by lia.
      rewrite length_app in Hlen. simpl in Hlen.
      rewrite nth_error_app1 in Hnth by lia.
      apply nth_error_In in Hnth. contradiction.
  - unfold replace in H. cbn [replace_from] in H. rewrite Hs in H.
    change (a ++ c :: replace_from (body ++ [h]) new 0 s)
      with (a ++ [c] ++ replace (body ++ [h]) new s) in H.
    rewrite app_assoc in H. apply IH in H.
    now rewrite <- app_assoc in H.
Qed.

Lemma contains_skip_positions old u :
  forall t,
    (forall i, i < List.length u ->
               startswith old (skipn i u ++ t) = false) ->
    contains old (u ++ t) = contains old t.
Proof.
  induction u as [|x u IH]; intros t H; [reflexivity|].
  cbn [app contains].
  pose proof (H 0 ltac:(simpl; lia)) as H0. simpl in H0. rewrite H0.
  simpl. apply IH. intros i Hi. apply (H (S i)). simpl. lia.
Qed.

Lemma no_occurrence_from_new t i :
  i < List.length new ->
  startswith (body ++ [h]) (skipn i new ++ t) = false.
Proof.
  intros Hi.
  destruct (startswith (body ++ [h]) (skipn i new ++ t)) eqn:E; auto.
  exfalso. apply startswith_app_cases in E. destruct E as [E|E].
  - apply old_not_within in E. apply Hnew.
    rewrite <- (firstn_skipn i new). apply in_or_app. now right.
  - unfold no_overlap in Hover. rewrite forallb_forall in Hover.
    specialize (Hover i). rewrite E in Hover.
    assert (false = true); [|discriminate].
    apply Hover. apply in_seq. lia.
Qed.

(** [replace] leaves no occurrence of [old] behind. *)
Lemma replace_leaves_none n :
  forall s, List.length s <= n ->
            contains (body ++ [h]) (replace (body ++ [h]) new s) = false.
Proof.
  assert (Hold : exists x o, body ++ [h] = x :: o).
  { destruct body; simpl; eauto. }
  destruct Hold as (x & o & Hold).
  induction n as [|n IH]; intros s Hn.
  - destruct s; [|simpl in Hn; lia]. rewrite Hold. reflexivity.
  - destruct s as [|c s]; [rewrite Hold; reflexivity|].
    destruct (startswith (body ++ [h]) (c :: s)) eqn:Hs.
    + apply startswith_spec in Hs. destruct Hs as [post Hs].
      rewrite Hs, Hold, replace_occurrence, <- Hold.
      rewrite contains_skip_positions
        by (intros i Hi; now apply no_occurrence_from_new).
      apply IH. apply (f_equal (@List.length ascii)) in Hs.
      rewrite !length_app in Hs. simpl in Hs, Hn. lia.
    + unfold replace. cbn [replace_from]. rewrite Hs.
      fold (replace (body ++ [h]) new s). cbn [contains].
      rewrite (IH s) by (simpl in Hn; lia). rewrite orb_false_r.
      destruct (startswith (body ++ [h])
                  (c :: replace (body ++ [h]) new s)) eqn:E; auto.
      apply (startswith_before_replace s [c]) in E. simpl in E. congruence.
Qed.

End ReplaceAll.

Section NoHashLeft.

Lemma replace_clears_hash_form s :
  contains "OpinionSearch.aspx#"
           (replace "OpinionSearch.aspx#" "OpinionViewer.aspx?ID=" s)
  = false.
Proof.
  apply (replace_leaves_none "OpinionSearch.aspx" "OpinionViewer.aspx?ID="
                             "#"%char) with (n := List.length s).
  - not_among.
  - simpl. lia.
  - vm_compute. reflexivity.
  - lia.
Qed.

(** X14: every occurrence of "OpinionSearch.aspx#" is replaced, and the
    replacement makes no new one: a URL that was rewritten holds the hash
    form nowhere, so each URL the getter returns either holds "?ID" or
    is free of the hash form. *)
Theorem no_url_keeps_the_hash_form html :
  (forall href,
      ~ occurs "?ID" href ->
      ~ occurs "OpinionSearch.aspx#" (rewrite_href href))
  /\ Forall (fun url => occurs "?ID" url
                        \/ ~ occurs "OpinionSearch.aspx#" url)
            (_get_download_urls html).
Proof.
  assert (Hone : forall href,
             occurs "?ID" (rewrite_href href)
             \/ ~ occurs "OpinionSearch.aspx#" (rewrite_href href)).
  { intros href. unfold rewrite_href.
    destruct (contains "?ID" href) eqn:Hid.
    - left. now apply contains_spec.
    - right. apply contains_false. apply replace_clears_hash_form. }
  split.
  - intros href Hid. unfold rewrite_href.
    apply contains_false in Hid. rewrite Hid.
    apply contains_false. apply replace_clears_hash_form.
  - unfold _get_download_urls. apply Forall_map, Forall_forall.
    intros href _. apply Hone.
Qed.

Lemma no_url_keeps_the_hash_form_witness :
  ~ occurs "OpinionSearch.aspx#"
      (rewrite_href "OpinionSearch.aspx#OpinionSearch.aspx#7").
Proof.
  apply (proj1 (no_url_keeps_the_hash_form sample_page)).
  apply contains_false. vm_compute. reflexivity.
Defined.

End NoHashLeft.

(** ** Numbered citations with a long volume *)

Section NumberedBound.

(** How an alternate match begins: with a "T" in either case, or with one
    to four digits and a white-space character. *)
Lemma alt_sem_head prev w aft c' :
  sem tax_court_alt_regex prev w aft [] c' ->
  (exists x rest, w = x :: rest /\ lower_char x = lower_char "T")
  \/ (exists v s rest,
         w = v ++ s :: rest
         /\ all_ok (Range "0" "9") v /\ 1 <= List.length v <= 4
         /\ atom_ok Space s = true).
Proof.
  unfold tax_court_alt_regex. cbn [seq sem].
  intros (c1 & [(c2 & H & _)|H] & _).
  - left. destruct H as (l1 & rest & ? & -> & Hl1 & _).
    apply lit_sem in Hl1. destruct Hl1 as [Hl1 _].
    apply ci_eq_cons_inv in Hl1. destruct Hl1 as (t & l' & -> & Ht & _).
    exists t, (l' ++ rest). split; [reflexivity|exact Ht].
  - right.
    destruct H as (v & ? & ? & -> & (? & (Hv & Hv1 & Hv4 & _) & _) & H).
    destruct H as (ws1 & rest & ? & -> & (Hws & Hws1 & _ & _) & _).
    destruct ws1 as [|s ws1]; [simpl in Hws1; lia|].
    inversion Hws; subst.
    exists v, s, (ws1 ++ rest). simpl in Hv4.
    repeat split; auto.
Qed.

Lemma numbered_match_at prev v w1 w2 p :
  numbered_citation v w1 w2 p ->
  match_at tax_court_alt_regex prev
           (v ++ w1 ++ "T." ++ "C. No." ++ w2 ++ p ++ [])
  = Some {| whole := v ++ w1 ++ "T." ++ "C. No." ++ w2 ++ p ++ [];
            groups := [ (1, v ++ w1 ++ "T." ++ "C. No." ++ w2 ++ p ++ []);
                        (10, p);
                        (9, list_ascii_of_string "T.C. No.");
                        (8, v) ] |}.
Proof.
  intros (Hv & Hvlen & Hw1 & Hw1len & Hw2 & Hw2len & Hp & Hplen).
  unfold match_at, tax_court_alt_regex. cbn [seq].
  group_step. alt_step. apply orelse_right.
  { group_step. seq_step.
    destruct v as [|d v']; [simpl in Hvlen; lia|].
    inversion Hv; subst. apply run_lit_fail. now apply digit_no_T. }
  seq_step. rep_step run_group_rep.
  { right. apply (head_fails_app (atom_ok Space)); auto using space_no_digit. }
  seq_step. rep_step run_rep.
  { right. reflexivity. }
  seq_step. group_step.
  seq_step. rewrite run_lit by reflexivity.
  seq_step. apply run_opt_skip; [reflexivity|].
  rewrite run_lit by reflexivity.
  cbv beta.
  seq_step. rep_step run_rep.
  { right. apply (head_fails_app (atom_ok Decimal));
      auto using decimal_no_space. lia. }
  rep_step run_group_rep.
  { right. exact I. }
  cbv beta. rewrite !firstn_whole.
  rewrite (app_assoc "T." "C. No."), firstn_consumed. reflexivity.
Qed.

(** X15: in the numbered form too, only the last four digits of a longer
    volume number are read. *)
Theorem long_numbered_volume_is_cut ds v w1 w2 p :
  all_ok (Range "0" "9") ds ->
  numbered_citation v w1 w2 p ->
  List.length v = 4 ->
  extract_from_text (ds ++ v ++ w1 ++ "T.C. No." ++ w2 ++ p)
  = cited (PyStr "T.C.") (PyStr v) (PyStr p) "Published".
Proof.
  intros Hds Hc Hv4.
  assert (Hprimary :
            search tax_court_reports_regex
                   (ds ++ v ++ w1 ++ "T.C. No." ++ w2 ++ p) = None).
  { rewrite app_assoc. destruct Hc as (Hv & _ & Hw1 & _ & Hw2 & _ & Hp & _).
    apply numbered_no_primary_match; auto.
    apply Forall_app. split; assumption. }
  assert (Halt :
            search tax_court_alt_regex
                   (ds ++ v ++ w1 ++ "T.C. No." ++ w2 ++ p)
            = Some {| whole := v ++ w1 ++ "T.C. No." ++ w2 ++ p;
                      groups := [ (1, v ++ w1 ++ "T.C. No." ++ w2 ++ p);
                                  (10, p);
                                  (9, list_ascii_of_string "T.C. No.");
                                  (8, v) ] |}).
  { unfold search. rewrite search_from_skip.
    - apply search_from_at.
      pose proof (numbered_match_at (last_of None ds) v w1 w2 p Hc) as H.
      rewrite !app_nil_r in H. exact H.
    - intros a b -> Hb.
      destruct (match_at tax_court_alt_regex (last_of None a)
                  (b ++ v ++ w1 ++ "T.C. No." ++ w2 ++ p))
        as [m|] eqn:E; [exfalso|reflexivity].
      apply match_at_sound in E.
      destruct E as (w & aft & c' & Heq & Hs & _).
      apply Forall_app in Hds. destruct Hds as [_ Hb'].
      destruct Hc as (Hv & _ & Hw1 & Hw1l & _).
      apply alt_sem_head in Hs.
      destruct Hs as [(x & rest & -> & Hx)|(v' & s & rest & -> & _ & Hv'l
                                            & Hs)].
      + destruct b as [|d b]; [congruence|]. inversion Hb'; subst.
        simpl in Heq. injection Heq as <- _.
        pose proof (digit_no_T d ltac:(assumption)) as Hd.
        simpl in Hd. rewrite Hx, Ascii.eqb_refl in Hd. discriminate.
      + assert (Hdigit : atom_ok (Range "0" "9") s = true).
        { rewrite <- app_assoc in Heq. rewrite (app_assoc b v) in Heq.
          cbn [app] in Heq.
          eapply (digit_run_blocks (atom_ok (Range "0" "9")) v' (b ++ v));
            [ | |exact Heq].
          - apply Forall_app. split; assumption.
          - rewrite length_app. destruct b; [congruence|]. simpl. lia. }
        rewrite (space_no_digit s Hs) in Hdigit. discriminate. }
  unfold extract_from_text, extract_with.
  rewrite Hprimary, Halt. cbn [whole].
  replace (contains "No." (v ++ w1 ++ "T.C. No." ++ w2 ++ p)) with true.
  - reflexivity.
  - symmetry. apply contains_spec. exists (v ++ w1 ++ "T.C. "), (w2 ++ p).
    rewrite <- !app_assoc. reflexivity.
Qed.

Lemma long_numbered_volume_is_cut_witness :
  extract_from_text "123456 T.C. No. 7"
  = cited (PyStr "T.C.") (PyStr "3456") (PyStr "7") "Published".
Proof.
  apply (long_numbered_volume_is_cut "12" "3456" " " " " "7").
  - repeat constructor.
  - unfold numbered_citation.
    repeat split; try (simpl; lia); repeat constructor.
  - reflexivity.
Defined.

End NumberedBound.
